(** * brightness.py: backlight control through sysfs

    A shallow embedding of [brightness.py] and of the Python built-ins it
    calls ([int], [str], [round], true division, [format], [re.fullmatch]
    for the one pattern of the program), followed by the properties of the
    value grammar, of the brightness arithmetic and of the command
    dispatcher.

    Conventions of the model:
    - a Python [str] is the list of its Unicode code points;
    - a Python [int] is a [Z]; conversions between text and integers
      refuse more than 4300 digits, the default of the interpreter
      ([sys.int_info.default_max_str_digits]);
    - a Python [float] is a finite binary64 value, kept exactly as a sign, an
      integer significand and an exponent;
    - the two sysfs files are the only state besides the standard output,
      which is taken to accept what is printed; a file is read as text, with
      universal newlines, and bytes that cannot be decoded raise; a file can
      refuse to be opened, for reading or for writing, and can refuse what
      is written after it was opened; it keeps what is written to it; every
      [open] is logged so that the order of accesses can be stated;
    - [main] starts after [docopt.docopt] has returned the arguments. *)

From Stdlib Require Import ZArith List Bool Lia String Ascii.
Import ListNotations.
Open Scope Z_scope.

(* ===================================================================== *)
(** * Part I. Definitions                                                 *)
(* ===================================================================== *)

(** ** Python built-ins *)

Module Py.

(** A Python string: Unicode code points. *)
Definition str := list Z.

(** ASCII literals of the source, as code points. *)
Definition lit (s : string) : str :=
  map (fun a => Z.of_N (N_of_ascii a)) (list_ascii_of_string s).

Definition str_eqb (a b : str) : bool :=
  if list_eq_dec Z.eq_dec a b then true else false.

(** Code points with Unicode property Decimal_Digit Value 0 (category Nd,
    Unicode 14.0); each starts a run of ten consecutive digits. *)
Definition decimal_zeros : list Z :=
  [ 0x30; 0x660; 0x6f0; 0x7c0; 0x966; 0x9e6; 0xa66; 0xae6; 0xb66; 0xbe6;
    0xc66; 0xce6; 0xd66; 0xde6; 0xe50; 0xed0; 0xf20; 0x1040; 0x1090;
    0x17e0; 0x1810; 0x1946; 0x19d0; 0x1a80; 0x1a90; 0x1b50; 0x1bb0;
    0x1c40; 0x1c50; 0xa620; 0xa8d0; 0xa900; 0xa9d0; 0xa9f0; 0xaa50;
    0xabf0; 0xff10; 0x104a0; 0x10d30; 0x11066; 0x110f0; 0x11136; 0x111d0;
    0x112f0; 0x11450; 0x114d0; 0x11650; 0x116c0; 0x11730; 0x118e0;
    0x11950; 0x11c50; 0x11d50; 0x11da0; 0x16a60; 0x16ac0; 0x16b50;
    0x1d7ce; 0x1d7d8; 0x1d7e2; 0x1d7ec; 0x1d7f6; 0x1e140; 0x1e2f0;
    0x1e950; 0x1fbf0 ].

(** [Py_UNICODE_TODECIMAL]: the decimal value of a digit character. *)
Definition to_decimal (c : Z) : option Z :=
  match find (fun z => (z <=? c) && (c <? z + 10)) decimal_zeros with
  | Some z => Some (c - z)
  | None => None
  end.

(** What [\d] matches in a [str] pattern: any Unicode decimal digit. *)
Definition is_decimal (c : Z) : bool :=
  match to_decimal c with Some _ => true | None => false end.

(** The digits [0-9] only. *)
Definition is_ascii_digit (c : Z) : bool := (48 <=? c) && (c <=? 57).

(** [Py_ISSPACE]: the whitespace [int] skips among ASCII characters. *)
Definition Py_ISSPACE (c : Z) : bool := ((9 <=? c) && (c <=? 13)) || (c =? 32).

(** Non-ASCII characters with the Unicode White_Space property. *)
Definition unicode_spaces : list Z :=
  [ 0x85; 0xa0; 0x1680; 0x2000; 0x2001; 0x2002; 0x2003; 0x2004; 0x2005;
    0x2006; 0x2007; 0x2008; 0x2009; 0x200a; 0x2028; 0x2029; 0x202f;
    0x205f; 0x3000 ].

(** Whitespace as [int] sees it: ASCII characters are kept and tested with
    [Py_ISSPACE]; other characters are first mapped to a space when
    [Py_UNICODE_ISSPACE] holds. *)
Definition int_space (c : Z) : bool :=
  Py_ISSPACE c || ((127 <=? c) && existsb (Z.eqb c) unicode_spaces).

(** Every character [int] treats as whitespace, listed. *)
Definition space_list : list Z := [9; 10; 11; 12; 13; 32] ++ unicode_spaces.

(** The most digits that [int] reads and [str] writes
    ([sys.int_info.default_max_str_digits]). *)
Definition max_str_digits : Z := 4300.

(** What a [ValueError] says.  [UnicodeDecodeError] is a [ValueError]. *)
Inductive message : Type :=
| NoMessage                      (* [ValueError()] *)
| InvalidLiteral (s : str)       (* invalid literal for int() with base 10: <repr s> *)
| DigitLimitToInt (digits : Z)   (* Exceeds the limit ...: value has <digits> digits *)
| DigitLimitToStr                (* Exceeds the limit ... for integer string conversion *)
| CannotDecode.                  (* [UnicodeDecodeError]: the codec can't decode a byte *)

Inductive exn : Type :=
| ValueError (m : message)
| ZeroDivisionError
| OverflowError
| TypeError
| OSError (path : str)           (* [OSError] of [open] or [read] on the file at [path] *)
| OSErrorOnWrite.                (* [OSError] of a write to an open file *)

Definition result (A : Type) : Type := (A + exn)%type.
Definition Ok {A} (a : A) : result A := inl a.
Definition Raise {A} (e : exn) : result A := inr e.

(** The digits of an integer literal after its first digit: decimal digits,
    with single underscores allowed between two digits.  Returns the value
    and what follows the literal. *)
Fixpoint scan_digits (acc : Z) (prev_underscore : bool) (s : str)
  : option (Z * str) :=
  match s with
  | [] => if prev_underscore then None else Some (acc, [])
  | c :: r =>
      match to_decimal c with
      | Some d => scan_digits (10 * acc + d) false r
      | None =>
          if c =? 95 then
            if prev_underscore then None else scan_digits acc true r
          else if prev_underscore then None else Some (acc, s)
      end
  end.

(** How many digits the run of digits and underscores at the head of [s]
    holds. *)
Fixpoint run_digits (s : str) : Z :=
  match s with
  | [] => 0
  | c :: r =>
      if is_decimal c then 1 + run_digits r
      else if c =? 95 then run_digits r
      else 0
  end.

Fixpoint lstrip (s : str) : str :=
  match s with
  | c :: r => if int_space c then lstrip r else s
  | [] => []
  end.

(** [int(s)] for a string, base 10.  The literal is scanned first, with its
    underscores checked; then its digits are counted against the limit, the
    leading zeros too; what follows the literal is looked at last. *)
Definition int_of_str (s : str) : result Z :=
  let s1 := lstrip s in
  let '(negative, s2) :=
    match s1 with
    | c :: r =>
        if c =? 43 then (false, r)
        else if c =? 45 then (true, r)
        else (false, s1)
    | [] => (false, s1)
    end in
  match s2 with
  | c :: r =>
      match to_decimal c with
      | Some d =>
          match scan_digits d false r with
          | Some (v, rest) =>
              if max_str_digits <? 1 + run_digits r
              then Raise (ValueError (DigitLimitToInt (1 + run_digits r)))
              else if forallb int_space rest
              then Ok (if negative then - v else v)
              else Raise (ValueError (InvalidLiteral s))
          | None => Raise (ValueError (InvalidLiteral s))
          end
      | None => Raise (ValueError (InvalidLiteral s))
      end
  | [] => Raise (ValueError (InvalidLiteral s))
  end.

(** Decimal digits of a non-negative integer, most significant first. *)
Fixpoint digits_fuel (fuel : nat) (n : Z) (acc : str) : str :=
  match fuel with
  | O => acc
  | S f =>
      let acc' := (48 + n mod 10) :: acc in
      if n <? 10 then acc' else digits_fuel f (n / 10) acc'
  end.

Definition digits_of (n : Z) : str :=
  digits_fuel (S (Z.to_nat (Z.log2 n))) n [].

(** The decimal representation of an integer: [-] for a negative one, then
    its digits. *)
Definition str_of_int (n : Z) : str :=
  if n <? 0 then 45 :: digits_of (- n) else digits_of n.

(** [str(n)] for an integer, also [format(n, '')] and what [print] makes of
    it: the decimal representation, refused when it has more digits than
    the limit. *)
Definition str_int (n : Z) : result str :=
  if max_str_digits <? Z.of_nat (List.length (digits_of (Z.abs n)))
  then Raise (ValueError DigitLimitToStr)
  else Ok (str_of_int n).

(** The decimal representation as a property of a text: [-] for a negative
    integer, then ASCII digits, at least one, whose base-10 value is the
    magnitude and which are no more than the magnitude needs (no leading
    zero). *)
Definition decimal_text (n : Z) (s : str) : Prop :=
  exists ds,
    s = (if n <? 0 then [45] else []) ++ ds
    /\ ds <> [] /\ forallb is_ascii_digit ds = true
    /\ fold_left (fun acc c => 10 * acc + (c - 48)) ds 0 = Z.abs n
    /\ forall k, 1 <= k -> Z.abs n < 10 ^ k -> Z.of_nat (List.length ds) <= k.

(** *** Text files

    A Unicode scalar value: what a decoded character can be. *)
Definition is_scalar (c : Z) : bool :=
  ((0 <=? c) && (c <? 0xD800)) || ((0xE000 <=? c) && (c <=? 0x10FFFF)).

(** Reading in text mode with universal newlines: a carriage return, alone
    or followed by a line feed, is read as one line feed. *)
Fixpoint universal_newlines (s : str) : str :=
  match s with
  | [] => []
  | c :: r =>
      if c =? 13 then
        10 :: match r with
              | [] => []
              | c' :: r' =>
                  if c' =? 10 then universal_newlines r'
                  else universal_newlines r
              end
      else c :: universal_newlines r
  end.

(** A result of [int] with its message quoting another text: the text that
    [int] was given when it differs from the one at hand. *)
Definition requote (text : str) (r : result Z) : result Z :=
  match r with
  | inr (ValueError (InvalidLiteral _)) =>
      Raise (ValueError (InvalidLiteral text))
  | _ => r
  end.

(** What [int] counts against the limit in a literal: its digits. *)
Definition digit_count (s : str) : Z :=
  Z.of_nat (List.length (filter is_decimal s)).

(** *** Floating point

    A finite binary64 number [(-1)^negative * significand * 2^exponent]. *)
Record float : Type :=
  { negative : bool; significand : Z; exponent : Z }.

(** The integer nearest to [n / d], ties to the even one ([0 <= n], [0 < d]). *)
Definition div_half_even (n d : Z) : Z :=
  let q := n / d in
  let r := n mod d in
  if 2 * r <? d then q
  else if d <? 2 * r then q + 1
  else if Z.even q then q else q + 1.

(** The binade of [n / d]: the [e] with [2^e <= n / d < 2^(e+1)]
    ([0 < n], [0 < d]). *)
Definition ilog2_ratio (n d : Z) : Z :=
  let l := Z.log2 n - Z.log2 d in
  if (if 0 <=? l then d * 2 ^ l <=? n else d <=? n * 2 ^ (- l))
  then l else l - 1.

(** [n / d] rounded to binary64, to nearest and ties to even, gradual
    underflow included: 53 significant bits, least exponent -1074. *)
Definition nearest_double (n d : Z) : Z * Z :=
  let e := Z.max (ilog2_ratio n d - 52) (-1074) in
  let m := if 0 <=? e then div_half_even n (d * 2 ^ e)
           else div_half_even (n * 2 ^ (- e)) d in
  (m, e).

(** [a / b] on integers: true division, correctly rounded. *)
Definition true_divide (a b : Z) : result float :=
  if b =? 0 then Raise ZeroDivisionError
  else
    let neg := xorb (a <? 0) (b <? 0) in
    if a =? 0 then Ok {| negative := neg; significand := 0; exponent := 0 |}
    else
      let '(m, e) := nearest_double (Z.abs a) (Z.abs b) in
      if (0 <=? e) && (2 ^ 1024 <=? m * 2 ^ e) then Raise OverflowError
      else Ok {| negative := neg; significand := m; exponent := e |}.

(** The magnitude of [x] scaled by [k] and rounded to an integer, ties to
    even. *)
Definition round_scaled (k : Z) (x : float) : Z :=
  if 0 <=? exponent x then k * significand x * 2 ^ exponent x
  else div_half_even (k * significand x) (2 ^ (- exponent x)).

(** [round(x)] with one argument: an integer, ties to even. *)
Definition round (x : float) : Z :=
  if negative x then - round_scaled 1 x else round_scaled 1 x.

(** ['{:.2f}'.format(x)]: the value rounded to hundredths from its exact
    binary expansion; the sign is kept even when the digits are all zero. *)
Definition format_2f (x : float) : str :=
  let h := round_scaled 100 x in
  (if negative x then [45] else [])
    ++ digits_of (h / 100) ++ [46; 48 + (h / 10) mod 10; 48 + h mod 10].

End Py.

(** ** The program *)

Module Brightness.
Import Py.

Definition backlight_prefix_path : str :=
  lit "/sys/class/backlight/intel_backlight".

(** The two files of the backlight directory. *)
Inductive file : Type := brightness | max_brightness.

Definition path (f : file) : str :=
  match f with
  | brightness => backlight_prefix_path ++ lit "/brightness"
  | max_brightness => backlight_prefix_path ++ lit "/max_brightness"
  end.

(** A file as the program meets it.  [readable]: [open(path)] and [read]
    succeed; otherwise the [OSError] of the one that fails is raised.
    [writable]: [open(path, mode='w')] succeeds.  [accepting]: what is
    written after a successful [open] is taken; otherwise [OSError] is
    raised once the file has been emptied.  [content]: the characters the
    codec makes of the bytes of the file; an entry that is no Unicode scalar
    value stands for bytes that the codec refuses. *)
Record node : Type :=
  { readable : bool; writable : bool; accepting : bool; content : str }.

Inductive event : Type :=
| OpenRead (f : file)
| OpenWrite (f : file).

(** The state the program can observe or change.  [opened] lists every call
    of [open], oldest first, whether it succeeded or not. *)
Record world : Type :=
  { brightness_node : node;
    max_brightness_node : node;
    stdout : str;
    opened : list event }.

Definition node_of (f : file) (w : world) : node :=
  match f with
  | brightness => brightness_node w
  | max_brightness => max_brightness_node w
  end.

Definition set_content (f : file) (text : str) (w : world) : world :=
  let upd (n : node) :=
    {| readable := readable n; writable := writable n;
       accepting := accepting n; content := text |} in
  match f with
  | brightness =>
      {| brightness_node := upd (brightness_node w);
         max_brightness_node := max_brightness_node w;
         stdout := stdout w; opened := opened w |}
  | max_brightness =>
      {| brightness_node := brightness_node w;
         max_brightness_node := upd (max_brightness_node w);
         stdout := stdout w; opened := opened w |}
  end.

Definition log (e : event) (w : world) : world :=
  {| brightness_node := brightness_node w;
     max_brightness_node := max_brightness_node w;
     stdout := stdout w; opened := opened w ++ [e] |}.

(** Computations that may raise and that act on the world. *)
Definition M (A : Type) : Type := world -> result A * world.

Definition ret {A} (a : A) : M A := fun w => (Ok a, w).
Definition raise {A} (e : exn) : M A := fun w => (Raise e, w).
Definition bind {A B} (m : M A) (k : A -> M B) : M B :=
  fun w => match m w with
           | (inl a, w') => k a w'
           | (inr e, w') => (inr e, w')
           end.
Definition lift {A} (r : result A) : M A := fun w => (r, w).

#[local] Notation "x <- m ;; k" := (bind m (fun x => k))
  (at level 61, m at next level, right associativity).
#[local] Notation "m ;;; k" := (bind m (fun _ => k))
  (at level 61, right associativity).

(** What [read] returns for the content of a file: the decoded text with
    universal newlines, or [UnicodeDecodeError]. *)
Definition read_text (n : node) : result str :=
  if forallb is_scalar (content n)
  then Ok (universal_newlines (content n))
  else Raise (ValueError CannotDecode).

(** [open(path).read()] inside a [with] block. *)
Definition read_file (f : file) : M str :=
  fun w =>
    let w' := log (OpenRead f) w in
    if readable (node_of f w) then (read_text (node_of f w), w')
    else (Raise (OSError (path f)), w').

(** [open(path, mode='w')]: the file is truncated. *)
Definition open_write (f : file) : M unit :=
  fun w =>
    let w' := log (OpenWrite f) w in
    if writable (node_of f w) then (Ok tt, set_content f [] w')
    else (Raise (OSError (path f)), w').

(** [print(value, file=fd)] for an integer, up to the end of the [with]
    block: [str(value)] and a newline reach the file, unless [str] refuses
    the value or the file refuses the text. *)
Definition print_file (f : file) (value : Z) : M unit :=
  fun w =>
    match str_int value with
    | inr e => (inr e, w)
    | inl text =>
        if accepting (node_of f w)
        then (Ok tt, set_content f (content (node_of f w) ++ text ++ [10]) w)
        else (Raise OSErrorOnWrite, w)
    end.

(** [print(text)]. *)
Definition print (text : str) : M unit :=
  fun w =>
    (Ok tt,
     {| brightness_node := brightness_node w;
        max_brightness_node := max_brightness_node w;
        stdout := stdout w ++ text ++ [10]; opened := opened w |}).

Definition read_brightness : M Z :=
  text <- read_file brightness ;; lift (int_of_str text).

Definition read_max_brightness : M Z :=
  text <- read_file max_brightness ;; lift (int_of_str text).

(** What a reader makes of a file that it could read: [int] of the text. *)
Definition read_int (n : node) : result Z :=
  match read_text n with
  | inl text => int_of_str text
  | inr e => inr e
  end.

(** What a reader returns or raises: the [OSError] of a file that cannot be
    opened or read, or what [int] makes of the text. *)
Definition read_value (f : file) (w : world) : result Z :=
  if readable (node_of f w) then read_int (node_of f w)
  else Raise (OSError (path f)).

(** The reader of each file. *)
Definition reader (f : file) : M Z :=
  match f with
  | brightness => read_brightness
  | max_brightness => read_max_brightness
  end.

Definition print_current_brightness : M unit :=
  max <- read_max_brightness ;;
  cur <- read_brightness ;;
  percentage <- lift (true_divide (cur * 100) max) ;;
  cur_text <- lift (str_int cur) ;;
  max_text <- lift (str_int max) ;;
  print (lit "Current brightness: " ++ cur_text ++ lit "/"
           ++ max_text ++ lit " (" ++ format_2f percentage ++ lit "%)").

(** The groups of a match: the sign or [None], the digits, ['%'] or [None]. *)
Definition groups : Type := (option str * str * option str)%type.

(** The group of an optional part of the pattern: [None] when the part
    matched nothing. *)
Definition group (part : str) : option str :=
  match part with [] => None | _ :: _ => Some part end.

Fixpoint span_decimal (s : str) : str * str :=
  match s with
  | c :: r =>
      if is_decimal c then let '(ds, rest) := span_decimal r in (c :: ds, rest)
      else ([], s)
  | [] => ([], [])
  end.

(** [re.fullmatch('([+-])?(\d+)(%)?', value)].  The three parts of the
    pattern match disjoint sets of characters, so the greedy choice at each
    of them is the only one that can lead to a match and no backtracking is
    modelled. *)
Definition re_fullmatch (value : str) : option groups :=
  let '(g0, r1) :=
    match value with
    | c :: r => if (c =? 43) || (c =? 45) then (Some [c], r) else (None, value)
    | [] => (None, value)
    end in
  let '(g1, r2) := span_decimal r1 in
  match g1 with
  | [] => None
  | _ :: _ =>
      match r2 with
      | [] => Some (g0, g1, None)
      | [c] => if c =? 37 then Some (g0, g1, Some [c]) else None
      | _ :: _ :: _ => None
      end
  end.

(** A variable that is either [None] or an integer, used as an operand. *)
Definition operand (v : option Z) : M Z :=
  match v with
  | Some z => ret z
  | None => raise TypeError
  end.

(** Lines 78-109: from the groups of the match to the new brightness. *)
Definition new_brightness_of (g : groups) : M Z :=
  let '(g0, g1, g2) := g in
  cur_brightness <-
    match g0 with
    | Some _ => cur <- read_brightness ;; ret (Some cur)
    | None => ret None
    end ;;
  max_brightness <-
    match g2 with
    | Some _ => max <- read_max_brightness ;; ret (Some max)
    | None => ret None
    end ;;
  match g0, g2 with
  | None, None => lift (int_of_str g1)
  | None, Some _ =>
      n <- lift (int_of_str g1) ;;
      max <- operand max_brightness ;;
      q <- lift (true_divide (n * max) 100) ;;
      ret (round q)
  | Some sign, None =>
      n <- lift (int_of_str g1) ;;
      cur <- operand cur_brightness ;;
      ret (if str_eqb sign (lit "+") then cur + n else cur - n)
  | Some sign, Some _ =>
      n <- lift (int_of_str g1) ;;
      max <- operand max_brightness ;;
      q <- lift (true_divide (n * max) 100) ;;
      let delta := round q in
      cur <- operand cur_brightness ;;
      ret (if str_eqb sign (lit "+") then cur + delta else cur - delta)
  end.

Definition set_current_brightness (value : str) : M unit :=
  match re_fullmatch value with
  | None => raise (ValueError NoMessage)
  | Some g =>
      new_brightness <- new_brightness_of g ;;
      open_write brightness ;;;
      print_file brightness new_brightness
  end.

(** *** The directive a match denotes

    The four options that [set_current_brightness] tells apart (lines
    91-109), as a data type: which groups are [None], the sign compared with
    ['+'], and [int(groups[1])]. *)
Inductive sign : Type := Plus | Minus.

Inductive ChangeDirective : Type :=
| Absolute (n : Z)
| AbsolutePercent (p : Z)
| Relative (s : sign) (n : Z)
| RelativePercent (s : sign) (p : Z).

Definition sign_of (g0 : str) : sign :=
  if str_eqb g0 (lit "+") then Plus else Minus.

Definition directive_of (g : groups) : result ChangeDirective :=
  let '(g0, g1, g2) := g in
  match int_of_str g1 with
  | inr e => Raise e
  | inl n =>
      Ok match g0, g2 with
         | None, None => Absolute n
         | None, Some _ => AbsolutePercent n
         | Some s, None => Relative (sign_of s) n
         | Some s, Some _ => RelativePercent (sign_of s) n
         end
  end.

(** Lines 69-77 followed by the classification: the expression parser. *)
Definition parse (value : str) : result ChangeDirective :=
  match re_fullmatch value with
  | None => Raise (ValueError NoMessage)
  | Some g => directive_of g
  end.

Definition apply_sign (s : sign) (current delta : Z) : Z :=
  match s with
  | Plus => current + delta
  | Minus => current - delta
  end.

(** *** The grammar of value expressions

    [sign? digits percent?] over the whole string, for a given class of
    digit characters. *)
Definition sign_part (s : str) : Prop := s = [] \/ s = [43] \/ s = [45].
Definition percent_part (s : str) : Prop := s = [] \/ s = [37].

Definition expression (digit : Z -> bool) (value : str) : Prop :=
  exists sg ds pc,
    value = sg ++ ds ++ pc /\ sign_part sg /\ ds <> []
    /\ forallb digit ds = true /\ percent_part pc.

(** A run of digits read as a base-10 integer. *)
Definition digit_value (c : Z) : Z :=
  match to_decimal c with Some d => d | None => 0 end.

Definition decimal_value (ds : str) : Z :=
  fold_left (fun acc c => 10 * acc + digit_value c) ds 0.

(** The directive that the classification table of the grammar gives. *)
Definition classified (sg ds pc : str) : ChangeDirective :=
  match sg, pc with
  | [], [] => Absolute (decimal_value ds)
  | [], _ :: _ => AbsolutePercent (decimal_value ds)
  | c :: _, [] => Relative (if c =? 43 then Plus else Minus) (decimal_value ds)
  | c :: _, _ :: _ =>
      RelativePercent (if c =? 43 then Plus else Minus) (decimal_value ds)
  end.

(** What [int] accepts between the whitespace and after the sign: decimal
    digits, single underscores allowed between two of them; [int_body v s]
    holds when [s] is such a literal and [v] its value. *)
Inductive int_body : Z -> str -> Prop :=
| body_digit c d : to_decimal c = Some d -> int_body d [c]
| body_more v s c d :
    int_body v s -> to_decimal c = Some d -> int_body (10 * v + d) (s ++ [c])
| body_underscore v s c d :
    int_body v s -> to_decimal c = Some d ->
    int_body (10 * v + d) (s ++ [95; c]).

Definition spaces (s : str) : Prop := forallb int_space s = true.

(** The strings [int] accepts, with their values. *)
Definition int_literal (v : Z) (s : str) : Prop :=
  exists ws1 sg body ws2 u,
    s = ws1 ++ sg ++ body ++ ws2 /\ spaces ws1 /\ spaces ws2
    /\ sign_part sg /\ int_body u body
    /\ v = (if list_eq_dec Z.eq_dec sg [45] then - u else u).

(** *** Initial states for the examples *)
Definition device (current maximum : str) : world :=
  {| brightness_node :=
       {| readable := true; writable := true; accepting := true;
          content := current |};
     max_brightness_node :=
       {| readable := true; writable := false; accepting := true;
          content := maximum |};
     stdout := [];
     opened := [] |}.


(** Strings outside the grammar: empty, letters, a letter after the digits,
    two signs, a sign after the digits, whitespace before, inside and after,
    a leading percent sign, two percent signs, an underscore. *)
Definition malformed : list str :=
  [ []; lit "abc"; lit "5a"; lit "+-5"; lit "5+"; lit " 5"; lit "5 %";
    lit "5 "; lit "%5"; lit "5%%"; lit "1_0" ].

(** What [docopt.docopt] hands to [main]: the [set] flag with its value. *)
Inductive args : Type :=
| ArgsShow
| ArgsSet (value : str).

(** How [main] ends: it returns, it raises [DocoptExit] (the message and
    the usage text go to the error stream), or an exception escapes. *)
Inductive outcome : Type :=
| Returned
| DocoptExit (m : message)
| Uncaught (e : exn).

Definition main (a : args) (w : world) : outcome * world :=
  let body :=
    match a with
    | ArgsSet value => set_current_brightness value
    | ArgsShow => print_current_brightness
    end in
  match body w with
  | (inl _, w') => (Returned, w')
  | (inr (ValueError m), w') => (DocoptExit m, w')
  | (inr e, w') => (Uncaught e, w')
  end.

(** Exit status of the process. *)
Definition exit_status (o : outcome) : Z :=
  match o with
  | Returned => 0
  | DocoptExit _ => 1
  | Uncaught _ => 1
  end.

(** *** Vocabulary for the effects of a run *)

(** Opening for reading, as opposed to opening for writing. *)
Definition is_read (e : event) : bool :=
  match e with
  | OpenRead _ => true
  | OpenWrite _ => false
  end.

(** The number carried by a directive. *)
Definition payload (d : ChangeDirective) : Z :=
  match d with
  | Absolute n => n
  | AbsolutePercent p => p
  | Relative _ n => n
  | RelativePercent _ p => p
  end.

(** A device whose files may be closed to the program: whether the
    brightness file can be read and written, whether the maximum can be
    read. *)
Definition device_with (read_current write_current read_maximum : bool)
    (current maximum : str) : world :=
  {| brightness_node :=
       {| readable := read_current; writable := write_current;
          accepting := true; content := current |};
     max_brightness_node :=
       {| readable := read_maximum; writable := false; accepting := true;
          content := maximum |};
     stdout := [];
     opened := [] |}.

(** A device that can be opened for writing and refuses what is written. *)
Definition refusing_device (current maximum : str) : world :=
  {| brightness_node :=
       {| readable := true; writable := true; accepting := false;
          content := current |};
     max_brightness_node :=
       {| readable := true; writable := false; accepting := true;
          content := maximum |};
     stdout := [];
     opened := [] |}.

(** A percentage given in hundredths, written with two decimals. *)
Definition two_decimals (h : Z) : str :=
  digits_of (h / 100) ++ lit "." ++ [48 + (h / 10) mod 10; 48 + h mod 10].

End Brightness.

(* ===================================================================== *)
(** * Part II. Properties                                                 *)
(* ===================================================================== *)

Import Py Brightness.

(** ** Characters *)

Section Characters.

Lemma to_decimal_ascii c :
  is_ascii_digit c = true -> to_decimal c = Some (c - 48).
Proof.
  unfold is_ascii_digit. intros H.
  apply andb_true_iff in H as [H1 H2].
  apply Z.leb_le in H1. apply Z.leb_le in H2.
  unfold to_decimal, decimal_zeros. cbn [find].
  replace (48 <=? c) with true by (symmetry; apply Z.leb_le; lia).
  replace (c <? 48 + 10) with true by (symmetry; apply Z.ltb_lt; lia).
  reflexivity.
Qed.

Lemma to_decimal_range c d : to_decimal c = Some d -> 0 <= d <= 9.
Proof.
  unfold to_decimal.
  destruct (find _ decimal_zeros) as [z|] eqn:E; [|discriminate].
  intros [= <-]. apply find_some in E as [_ E].
  apply andb_true_iff in E as [E1 E2].
  apply Z.leb_le in E1. apply Z.ltb_lt in E2. lia.
Qed.

Lemma ascii_digit_is_decimal c : is_ascii_digit c = true -> is_decimal c = true.
Proof. intros H. unfold is_decimal. now rewrite (to_decimal_ascii c H). Qed.

Lemma is_decimal_true c : is_decimal c = true -> exists d, to_decimal c = Some d.
Proof. unfold is_decimal. destruct (to_decimal c); [eauto | discriminate]. Qed.

Lemma is_decimal_false c : is_decimal c = false -> to_decimal c = None.
Proof. unfold is_decimal. destruct (to_decimal c); [discriminate | auto]. Qed.

Lemma int_space_listed c : int_space c = true -> In c space_list.
Proof.
  unfold int_space, Py_ISSPACE. intros H.
  apply orb_true_iff in H as [H | H].
  - apply orb_true_iff in H as [H | H].
    + apply andb_true_iff in H as [H1 H2].
      apply Z.leb_le in H1. apply Z.leb_le in H2.
      assert (c = 9 \/ c = 10 \/ c = 11 \/ c = 12 \/ c = 13) as D by lia.
      unfold space_list. simpl. intuition.
    + apply Z.eqb_eq in H. subst. unfold space_list. simpl. intuition.
  - apply andb_true_iff in H as [_ H].
    apply existsb_exists in H as (x & Hx & E).
    apply Z.eqb_eq in E. subst x. unfold space_list.
    apply in_or_app. now right.
Qed.

Lemma space_not_decimal c : int_space c = true -> to_decimal c = None.
Proof.
  intros H. apply int_space_listed in H.
  assert (forallb (fun x => negb (is_decimal x)) space_list = true) as A
      by (vm_compute; reflexivity).
  rewrite forallb_forall in A. specialize (A c H).
  apply negb_true_iff in A. now apply is_decimal_false.
Qed.

Lemma space_not_underscore c : int_space c = true -> c <> 95.
Proof. intros H ->. vm_compute in H. discriminate. Qed.

Lemma space_not_sign c : int_space c = true -> c <> 43 /\ c <> 45.
Proof. intros H. split; intros ->; vm_compute in H; discriminate. Qed.

Lemma decimal_not_space c d : to_decimal c = Some d -> int_space c = false.
Proof.
  intros H. destruct (int_space c) eqn:E; [|reflexivity].
  apply space_not_decimal in E. congruence.
Qed.

Lemma decimal_not_mark c d :
  to_decimal c = Some d -> c <> 43 /\ c <> 45 /\ c <> 37 /\ c <> 95.
Proof.
  intros H. repeat split; intros ->; vm_compute in H; discriminate.
Qed.

End Characters.

(** ** [int] on strings *)

Section IntOfStr.

Lemma lstrip_spaces ws s : spaces ws -> lstrip (ws ++ s) = lstrip s.
Proof.
  unfold spaces. induction ws as [|c ws IH]; simpl; intros H; [reflexivity|].
  apply andb_true_iff in H as [Hc Hws]. rewrite Hc. now apply IH.
Qed.

Lemma lstrip_head c r : int_space c = false -> lstrip (c :: r) = c :: r.
Proof. intros H. simpl. now rewrite H. Qed.

Lemma lstrip_split s :
  exists ws, s = ws ++ lstrip s /\ spaces ws
             /\ match lstrip s with c :: _ => int_space c = false | [] => True end.
Proof.
  induction s as [|c s (ws & E & Hws & Hh)]; simpl.
  - exists []. repeat split.
  - destruct (int_space c) eqn:Hc.
    + exists (c :: ws). repeat split.
      * simpl. now rewrite <- E.
      * unfold spaces in *. simpl. now rewrite Hc.
      * exact Hh.
    + exists []. repeat split. exact Hc.
Qed.

(** Scanning resumes after a literal as if its value had been accumulated. *)
Lemma scan_body v s :
  int_body v s ->
  exists c r d, s = c :: r /\ to_decimal c = Some d
                /\ forall k, scan_digits d false (r ++ k) = scan_digits v false k.
Proof.
  induction 1 as [c d Hd | v s c d _ (c0 & r0 & d0 & -> & Hd0 & IH) Hd
                 | v s c d _ (c0 & r0 & d0 & -> & Hd0 & IH) Hd].
  - exists c, [], d. repeat split; auto.
  - exists c0, (r0 ++ [c]), d0. repeat split; auto.
    intros k. rewrite <- app_assoc, IH. simpl. now rewrite Hd.
  - exists c0, (r0 ++ [95; c]), d0. repeat split; auto.
    intros k. rewrite <- app_assoc, IH. simpl. now rewrite Hd.
Qed.

Lemma scan_stops_at_spaces v ws :
  spaces ws -> scan_digits v false ws = Some (v, ws).
Proof.
  unfold spaces. destruct ws as [|c ws]; simpl; [reflexivity|].
  intros H. apply andb_true_iff in H as [Hc _].
  rewrite (space_not_decimal c Hc).
  destruct (c =? 95) eqn:E; [|reflexivity].
  apply Z.eqb_eq in E. now apply space_not_underscore in Hc.
Qed.

Lemma scan_complete v rest r :
  forall acc b pre,
    scan_digits acc b r = Some (v, rest) ->
    int_body acc pre ->
    exists r', r = r' ++ rest
               /\ int_body v (pre ++ (if b then [95] else []) ++ r')
               /\ match rest with
                  | c :: _ => to_decimal c = None /\ c <> 95
                  | [] => True
                  end.
Proof.
  induction r as [|c r IH]; intros acc b pre; simpl.
  - destruct b; [discriminate|]. intros [= <- <-] Hb.
    exists []. simpl. rewrite app_nil_r. auto.
  - destruct (to_decimal c) as [d|] eqn:Hd.
    + intros Hs Hb.
      destruct (IH (10 * acc + d) false
                   (pre ++ (if b then [95] else []) ++ [c]) Hs)
        as (r' & -> & Hbody & Hrest).
      * destruct b; simpl.
        -- now apply body_underscore.
        -- now apply body_more.
      * exists (c :: r'). repeat split; auto.
        simpl in Hbody. rewrite <- !app_assoc in Hbody. simpl in Hbody.
        destruct b; simpl in *; exact Hbody.
    + destruct (c =? 95) eqn:E.
      * apply Z.eqb_eq in E. subst c.
        destruct b; [discriminate|]. intros Hs Hb.
        destruct (IH acc true pre Hs Hb) as (r' & -> & Hbody & Hrest).
        exists (95 :: r'). repeat split; auto.
      * destruct b; [discriminate|]. intros [= <- <-] Hb.
        exists []. simpl. rewrite app_nil_r. repeat split; auto.
        now apply Z.eqb_neq.
Qed.

Lemma int_body_head v s :
  int_body v s -> exists c r d, s = c :: r /\ to_decimal c = Some d.
Proof.
  intros H. destruct (scan_body v s H) as (c & r & d & E & Hd & _). eauto.
Qed.

(** Counting the digits of a literal. *)
Lemma digit_count_app a b :
  digit_count (a ++ b) = digit_count a + digit_count b.
Proof. unfold digit_count. rewrite filter_app, length_app. lia. Qed.

Lemma digit_count_cons c s :
  digit_count (c :: s) = (if is_decimal c then 1 else 0) + digit_count s.
Proof.
  unfold digit_count. cbn [filter].
  destruct (is_decimal c); cbn [List.length]; lia.
Qed.

Lemma digit_count_nonneg s : 0 <= digit_count s.
Proof. unfold digit_count. lia. Qed.

Lemma digit_count_spaces ws : spaces ws -> digit_count ws = 0.
Proof.
  unfold spaces. induction ws as [|c ws IH]; [reflexivity|].
  simpl. intros H. apply andb_true_iff in H as [Hc Hws].
  rewrite digit_count_cons. unfold is_decimal.
  rewrite (space_not_decimal c Hc). rewrite (IH Hws). reflexivity.
Qed.

Lemma digit_count_sign sg : sign_part sg -> digit_count sg = 0.
Proof. intros [-> | [-> | ->]]; reflexivity. Qed.

Lemma digit_count_digits ds :
  forallb is_decimal ds = true -> digit_count ds = Z.of_nat (List.length ds).
Proof.
  induction ds as [|c ds IH]; [reflexivity|].
  simpl forallb. intros H. apply andb_true_iff in H as [Hc Hds].
  rewrite digit_count_cons, Hc, (IH Hds). cbn [List.length]. lia.
Qed.

Lemma literal_digit_count ws1 sg body ws2 :
  spaces ws1 -> spaces ws2 -> sign_part sg ->
  digit_count (ws1 ++ sg ++ body ++ ws2) = digit_count body.
Proof.
  intros H1 H2 Hsg. rewrite !digit_count_app.
  rewrite (digit_count_spaces ws1 H1), (digit_count_spaces ws2 H2).
  rewrite (digit_count_sign sg Hsg). lia.
Qed.

Lemma body_chars v s :
  int_body v s -> forallb (fun c => is_decimal c || (c =? 95)) s = true.
Proof.
  assert (forall c d, to_decimal c = Some d ->
                      is_decimal c || (c =? 95) = true) as D.
  { intros c d H. unfold is_decimal. now rewrite H. }
  induction 1 as [c d Hd | v s c d _ IH Hd | v s c d _ IH Hd].
  - simpl. now rewrite (D c d Hd).
  - rewrite forallb_app, IH. simpl. now rewrite (D c d Hd).
  - rewrite forallb_app, IH. cbn [forallb]. rewrite (D c d Hd).
    reflexivity.
Qed.

Lemma run_digits_app r k :
  forallb (fun c => is_decimal c || (c =? 95)) r = true ->
  run_digits (r ++ k) = digit_count r + run_digits k.
Proof.
  induction r as [|c r IH]; [reflexivity|].
  simpl forallb. intros H. apply andb_true_iff in H as [Hc Hr].
  rewrite digit_count_cons. cbn [app run_digits]. rewrite (IH Hr).
  destruct (is_decimal c); [lia|].
  cbn [orb] in Hc. rewrite Hc. lia.
Qed.

Lemma run_digits_stop rest :
  match rest with
  | c :: _ => to_decimal c = None /\ c <> 95
  | [] => True
  end ->
  run_digits rest = 0.
Proof.
  destruct rest as [|c rest]; [reflexivity|]. intros [Hd Hu].
  simpl. unfold is_decimal. rewrite Hd.
  now replace (c =? 95) with false by (symmetry; now apply Z.eqb_neq).
Qed.

Lemma run_digits_spaces ws : spaces ws -> run_digits ws = 0.
Proof.
  intros H. apply run_digits_stop. destruct ws as [|c ws]; [exact I|].
  unfold spaces in H. simpl in H. apply andb_true_iff in H as [Hc _].
  split; [now apply space_not_decimal | now apply space_not_underscore].
Qed.

(** [int] on a literal: its value, unless it has too many digits. *)
Lemma int_of_str_literal ws1 sg body ws2 u :
  spaces ws1 -> spaces ws2 -> sign_part sg -> int_body u body ->
  int_of_str (ws1 ++ sg ++ body ++ ws2)
  = if max_str_digits <? digit_count body
    then Raise (ValueError (DigitLimitToInt (digit_count body)))
    else Ok (if list_eq_dec Z.eq_dec sg [45] then - u else u).
Proof.
  intros H1 H2 Hsg Hb.
  pose proof (body_chars u body Hb) as Hchars.
  destruct (scan_body u body Hb) as (c & r & d & -> & Hd & Hscan).
  pose proof (decimal_not_space c d Hd) as Hns.
  destruct (decimal_not_mark c d Hd) as (N43 & N45 & _ & _).
  simpl forallb in Hchars. apply andb_true_iff in Hchars as [_ Hr].
  assert (1 + run_digits (r ++ ws2) = digit_count (c :: r)) as Hrun.
  { rewrite (run_digits_app r ws2 Hr), (run_digits_spaces ws2 H2).
    rewrite digit_count_cons. unfold is_decimal. rewrite Hd. lia. }
  unfold int_of_str. rewrite lstrip_spaces by assumption.
  destruct Hsg as [-> | [-> | ->]]; simpl app.
  - rewrite lstrip_head by assumption.
    apply Z.eqb_neq in N43, N45. rewrite N43, N45. rewrite Hd.
    rewrite Hscan, scan_stops_at_spaces by assumption.
    rewrite Hrun, H2. reflexivity.
  - rewrite lstrip_head by reflexivity. cbv beta iota.
    change (43 =? 43) with true. cbv beta iota.
    rewrite Hd, Hscan, scan_stops_at_spaces by assumption.
    rewrite Hrun, H2. reflexivity.
  - rewrite lstrip_head by reflexivity. cbv beta iota.
    change (45 =? 43) with false. change (45 =? 45) with true.
    cbv beta iota.
    rewrite Hd, Hscan, scan_stops_at_spaces by assumption.
    rewrite Hrun, H2. reflexivity.
Qed.

(** [int] accepts every literal within the limit, with its value. *)
Lemma int_of_str_sound v s :
  int_literal v s -> digit_count s <= max_str_digits -> int_of_str s = Ok v.
Proof.
  intros (ws1 & sg & body & ws2 & u & -> & H1 & H2 & Hsg & Hb & ->) Hc.
  rewrite (literal_digit_count ws1 sg body ws2 H1 H2 Hsg) in Hc.
  rewrite (int_of_str_literal ws1 sg body ws2 u H1 H2 Hsg Hb).
  now replace (max_str_digits <? digit_count body) with false
    by (symmetry; apply Z.ltb_ge; lia).
Qed.

(** [int] refuses a literal beyond the limit, with the error of the limit. *)
Lemma int_of_str_limit v s :
  int_literal v s -> max_str_digits < digit_count s ->
  int_of_str s = Raise (ValueError (DigitLimitToInt (digit_count s))).
Proof.
  intros (ws1 & sg & body & ws2 & u & -> & H1 & H2 & Hsg & Hb & ->) Hc.
  rewrite (literal_digit_count ws1 sg body ws2 H1 H2 Hsg) in *.
  rewrite (int_of_str_literal ws1 sg body ws2 u H1 H2 Hsg Hb).
  now replace (max_str_digits <? digit_count body) with true
    by (symmetry; apply Z.ltb_lt; lia).
Qed.

(** Whatever [int] accepts is a literal within the limit. *)
Lemma int_of_str_complete v s :
  int_of_str s = Ok v -> int_literal v s /\ digit_count s <= max_str_digits.
Proof.
  unfold int_of_str.
  destruct (lstrip_split s) as (ws1 & E & Hws1 & Hhead).
  set (s1 := lstrip s) in *.
  assert (forall neg s2 sg,
             s1 = sg ++ s2 -> sign_part sg ->
             (neg = true <-> sg = [45]) ->
             match s2 with
             | c :: r =>
                 match to_decimal c with
                 | Some d =>
                     match scan_digits d false r with
                     | Some (v0, rest) =>
                         if max_str_digits <? 1 + run_digits r
                         then Raise (ValueError
                                       (DigitLimitToInt (1 + run_digits r)))
                         else if forallb int_space rest
                         then Ok (if neg then - v0 else v0)
                         else Raise (ValueError (InvalidLiteral s))
                     | None => Raise (ValueError (InvalidLiteral s))
                     end
                 | None => Raise (ValueError (InvalidLiteral s))
                 end
             | [] => Raise (ValueError (InvalidLiteral s))
             end = Ok v ->
             int_literal v s /\ digit_count s <= max_str_digits) as K.
  { intros neg s2 sg E1 Hsg Hneg.
    destruct s2 as [|c r]; [discriminate|].
    destruct (to_decimal c) as [d|] eqn:Hd; [|discriminate].
    destruct (scan_digits d false r) as [[v0 rest]|] eqn:Hs; [|discriminate].
    destruct (max_str_digits <? 1 + run_digits r) eqn:Hlim; [discriminate|].
    destruct (forallb int_space rest) eqn:Hr; [|discriminate].
    intros [= <-].
    destruct (scan_complete v0 rest r d false [c] Hs (body_digit c d Hd))
      as (r' & -> & Hbody & Hstop).
    simpl app in Hbody.
    pose proof (body_chars _ _ Hbody) as Hchars.
    simpl forallb in Hchars. apply andb_true_iff in Hchars as [_ Hr'].
    apply Z.ltb_ge in Hlim.
    rewrite (run_digits_app r' rest Hr'), (run_digits_stop rest Hstop) in Hlim.
    split.
    - exists ws1, sg, (c :: r'), rest, v0. repeat split; auto.
      + rewrite E, E1. reflexivity.
      + destruct (list_eq_dec Z.eq_dec sg [45]) as [e|e].
        * apply Hneg in e. now rewrite e.
        * destruct neg; [|reflexivity]. exfalso. apply e. now apply Hneg.
    - rewrite E, E1.
      change (sg ++ c :: r' ++ rest) with (sg ++ (c :: r') ++ rest).
      rewrite (literal_digit_count ws1 sg (c :: r') rest Hws1 Hr Hsg).
      rewrite digit_count_cons. unfold is_decimal. rewrite Hd. lia. }
  destruct s1 as [|c r] eqn:Es1.
  - intros H. discriminate.
  - destruct (c =? 43) eqn:E43; [|destruct (c =? 45) eqn:E45].
    + apply Z.eqb_eq in E43. subst c.
      apply (K false r [43]); [reflexivity | right; now left |].
      split; intros; discriminate.
    + apply Z.eqb_eq in E45. subst c.
      apply (K true r [45]); [reflexivity | right; now right |].
      split; reflexivity.
    + apply (K false (c :: r) []); [reflexivity | now left |].
      split; intros; discriminate.
Qed.

(** The three ways [int] ends. *)
Lemma int_of_str_cases s :
  (exists v, int_of_str s = Ok v)
  \/ int_of_str s = Raise (ValueError (InvalidLiteral s))
  \/ (exists k, max_str_digits < k
                /\ int_of_str s = Raise (ValueError (DigitLimitToInt k))).
Proof.
  unfold int_of_str.
  destruct (lstrip s) as [|c r].
  - right. now left.
  - destruct (c =? 43); [|destruct (c =? 45)].
    1, 2: destruct r as [|c' r']; [right; now left|].
    all: cbv beta iota zeta.
    all: destruct (to_decimal _); [|right; now left].
    all: destruct (scan_digits _ _ _) as [[v0 rest]|]; [|right; now left].
    all: match goal with
         | |- context [max_str_digits <? ?k] =>
             destruct (max_str_digits <? k) eqn:L;
             [right; right; exists k; split;
              [now apply Z.ltb_lt | reflexivity]|]
         end.
    all: destruct (forallb int_space rest); [left; eauto | right; now left].
Qed.

Lemma run_digits_le r : run_digits r <= digit_count r.
Proof.
  induction r as [|c r IH]; [reflexivity|].
  rewrite digit_count_cons. cbn [run_digits].
  pose proof (digit_count_nonneg r).
  destruct (is_decimal c); [lia|]. destruct (c =? 95); lia.
Qed.

(** The digits that [int] counts against the limit are digits of the
    string. *)
Lemma int_of_str_limit_count s k :
  int_of_str s = Raise (ValueError (DigitLimitToInt k)) ->
  max_str_digits < k <= digit_count s.
Proof.
  unfold int_of_str.
  destruct (lstrip_split s) as (ws1 & E & Hws1 & _).
  pose proof (digit_count_spaces ws1 Hws1) as Z1.
  assert (forall (neg : bool) s2,
             digit_count s2 <= digit_count s ->
             match s2 with
             | c :: r =>
                 match to_decimal c with
                 | Some d =>
                     match scan_digits d false r with
                     | Some (v0, rest) =>
                         if max_str_digits <? 1 + run_digits r
                         then Raise (ValueError
                                       (DigitLimitToInt (1 + run_digits r)))
                         else if forallb int_space rest
                         then Ok (if neg then - v0 else v0)
                         else Raise (ValueError (InvalidLiteral s))
                     | None => Raise (ValueError (InvalidLiteral s))
                     end
                 | None => Raise (ValueError (InvalidLiteral s))
                 end
             | [] => Raise (ValueError (InvalidLiteral s))
             end = Raise (ValueError (DigitLimitToInt k)) ->
             max_str_digits < k <= digit_count s) as K.
  { intros neg s2 Hle.
    destruct s2 as [|c r]; [discriminate|].
    destruct (to_decimal c) as [d|] eqn:Hd; [|discriminate].
    destruct (scan_digits d false r) as [[v0 rest]|]; [|discriminate].
    destruct (max_str_digits <? 1 + run_digits r) eqn:L.
    - intros Heq. unfold Raise in Heq.
      assert (k = 1 + run_digits r) as -> by congruence.
      apply Z.ltb_lt in L. split; [exact L|].
      assert (is_decimal c = true) as Dc by (unfold is_decimal; now rewrite Hd).
      rewrite digit_count_cons, Dc in Hle. cbv iota in Hle.
      pose proof (run_digits_le r). lia.
    - destruct (forallb int_space rest); discriminate. }
  assert (digit_count (lstrip s) = digit_count s) as Es.
  { rewrite E at 2. rewrite digit_count_app. lia. }
  destruct (lstrip s) as [|c r].
  - discriminate.
  - rewrite digit_count_cons in Es.
    pose proof (digit_count_nonneg r).
    destruct (c =? 43); [|destruct (c =? 45)].
    + apply (K false r). destruct (is_decimal c); lia.
    + apply (K true r). destruct (is_decimal c); lia.
    + apply (K false (c :: r)). rewrite digit_count_cons. lia.
Qed.

(** What [int] calls an invalid literal is no literal. *)
Lemma invalid_not_literal s t :
  int_of_str s = Raise (ValueError (InvalidLiteral t)) ->
  forall v, ~ int_literal v s.
Proof.
  intros H v L.
  destruct (Z_le_gt_dec (digit_count s) max_str_digits) as [C | C].
  - rewrite (int_of_str_sound v s L C) in H. discriminate.
  - rewrite (int_of_str_limit v s L ltac:(lia)) in H. discriminate.
Qed.

(** What [int] raises on a string that is no literal. *)
Lemma not_literal_cases s :
  (forall v, ~ int_literal v s) ->
  int_of_str s = Raise (ValueError (InvalidLiteral s))
  \/ exists k, max_str_digits < k <= digit_count s
               /\ int_of_str s = Raise (ValueError (DigitLimitToInt k)).
Proof.
  intros H. destruct (int_of_str_cases s) as [[v Hv] | [E | (k & Hk & E)]].
  - apply int_of_str_complete in Hv as [Hv _]. now apply H in Hv.
  - now left.
  - right. exists k. split; [|exact E].
    now apply int_of_str_limit_count.
Qed.

(** The value [int] returns stays below the power of ten of the limit. *)
Lemma int_body_bound v s : int_body v s -> 0 <= v < 10 ^ digit_count s.
Proof.
  induction 1 as [c d Hd | v s c d _ IH Hd | v s c d _ IH Hd].
  - apply to_decimal_range in Hd as B.
    rewrite digit_count_cons. unfold is_decimal. rewrite Hd.
    change (digit_count []) with 0. change (10 ^ (1 + 0)) with 10. lia.
  - apply to_decimal_range in Hd as B.
    rewrite digit_count_app, digit_count_cons. unfold is_decimal. rewrite Hd.
    change (digit_count []) with 0.
    pose proof (digit_count_nonneg s).
    rewrite Z.pow_add_r by lia. change (10 ^ (1 + 0)) with 10. lia.
  - apply to_decimal_range in Hd as B.
    rewrite digit_count_app, !digit_count_cons. unfold is_decimal at 2.
    rewrite Hd. change (is_decimal 95) with false.
    change (digit_count []) with 0.
    pose proof (digit_count_nonneg s).
    rewrite Z.pow_add_r by lia. change (10 ^ (0 + (1 + 0))) with 10. lia.
Qed.

Lemma int_of_str_bound s v :
  int_of_str s = Ok v -> Z.abs v < 10 ^ max_str_digits.
Proof.
  intros H. apply int_of_str_complete in H
    as [(ws1 & sg & body & ws2 & u & -> & H1 & H2 & Hsg & Hb & ->) Hc].
  rewrite (literal_digit_count ws1 sg body ws2 H1 H2 Hsg) in Hc.
  pose proof (int_body_bound u body Hb) as B.
  pose proof (digit_count_nonneg body).
  assert (10 ^ digit_count body <= 10 ^ max_str_digits)
    by (apply Z.pow_le_mono_r; lia).
  destruct (list_eq_dec Z.eq_dec sg [45]); lia.
Qed.

End IntOfStr.

(** ** Digit runs and [str] of an integer *)

Section Digits.

Lemma digit_value_ascii m : 0 <= m <= 9 -> digit_value (48 + m) = m.
Proof.
  intros H. unfold digit_value.
  rewrite to_decimal_ascii.
  - f_equal. lia.
  - unfold is_ascii_digit. apply andb_true_iff.
    split; apply Z.leb_le; lia.
Qed.

Lemma decimal_value_snoc ds c :
  decimal_value (ds ++ [c]) = 10 * decimal_value ds + digit_value c.
Proof. unfold decimal_value. now rewrite fold_left_app. Qed.

(** A non-empty run of decimal digits is a literal of [int]. *)
Lemma digits_int_body ds :
  ds <> [] -> forallb is_decimal ds = true -> int_body (decimal_value ds) ds.
Proof.
  induction ds as [|c ds IH] using rev_ind; [congruence|].
  intros _ H. rewrite forallb_app in H.
  apply andb_true_iff in H as [Hds Hc]. simpl in Hc.
  rewrite andb_true_r in Hc.
  destruct (is_decimal_true c Hc) as [d Hd].
  rewrite decimal_value_snoc.
  unfold digit_value at 1. rewrite Hd.
  destruct ds as [|c0 ds0].
  - simpl. change (decimal_value []) with 0. simpl. now apply body_digit.
  - apply body_more; auto. apply IH; [discriminate | assumption].
Qed.

Lemma decimal_value_nonneg ds : 0 <= decimal_value ds.
Proof.
  induction ds as [|c ds IH] using rev_ind.
  - unfold decimal_value. simpl. lia.
  - rewrite decimal_value_snoc.
    assert (0 <= digit_value c).
    { unfold digit_value. destruct (to_decimal c) eqn:E; [|lia].
      apply to_decimal_range in E. lia. }
    lia.
Qed.

Lemma digits_literal ds :
  ds <> [] -> forallb is_decimal ds = true ->
  int_literal (decimal_value ds) ds.
Proof.
  intros Hne Hds.
  exists [], [], ds, [], (decimal_value ds).
  repeat split.
  - now rewrite app_nil_r.
  - now left.
  - now apply digits_int_body.
Qed.

(** [int] on a run of digits: its value, within the limit. *)
Lemma int_of_digits ds :
  ds <> [] -> forallb is_decimal ds = true ->
  Z.of_nat (List.length ds) <= max_str_digits ->
  int_of_str ds = Ok (decimal_value ds).
Proof.
  intros Hne Hds Hlen. apply int_of_str_sound.
  - now apply digits_literal.
  - now rewrite digit_count_digits.
Qed.

Lemma int_of_digits_limit ds :
  ds <> [] -> forallb is_decimal ds = true ->
  max_str_digits < Z.of_nat (List.length ds) ->
  int_of_str ds
  = Raise (ValueError (DigitLimitToInt (Z.of_nat (List.length ds)))).
Proof.
  intros Hne Hds Hlen.
  rewrite <- (digit_count_digits ds Hds).
  apply (int_of_str_limit (decimal_value ds)).
  - now apply digits_literal.
  - now rewrite digit_count_digits.
Qed.

(** On a run of digits, [int] returns the value of the run or fails. *)
Lemma int_of_digits_value ds n :
  ds <> [] -> forallb is_decimal ds = true ->
  int_of_str ds = Ok n ->
  n = decimal_value ds /\ Z.of_nat (List.length ds) <= max_str_digits.
Proof.
  intros Hne Hds H.
  destruct (Z_le_gt_dec (Z.of_nat (List.length ds)) max_str_digits) as [L | G].
  - rewrite (int_of_digits ds Hne Hds L) in H. now injection H as <-.
  - rewrite (int_of_digits_limit ds Hne Hds ltac:(lia)) in H. discriminate.
Qed.

Lemma last_digit_ascii n : is_ascii_digit (48 + n mod 10) = true.
Proof.
  pose proof (Z.mod_pos_bound n 10 ltac:(lia)).
  unfold is_ascii_digit. apply andb_true_iff. split; apply Z.leb_le; lia.
Qed.

Lemma digits_fuel_S f n acc :
  digits_fuel (S f) n acc
  = if n <? 10 then (48 + n mod 10) :: acc
    else digits_fuel f (n / 10) ((48 + n mod 10) :: acc).
Proof. reflexivity. Qed.

Lemma digits_fuel_spec f :
  forall n acc,
    0 <= n < 2 ^ Z.of_nat (S f) ->
    exists ds, digits_fuel (S f) n acc = ds ++ acc
               /\ ds <> []
               /\ forallb is_ascii_digit ds = true
               /\ exists k, forall a,
                    fold_left (fun acc c => 10 * acc + digit_value c) ds a
                    = a * k + n.
Proof.
  assert (forall n, 0 <= n < 10 ->
            exists k, forall a,
              fold_left (fun acc c => 10 * acc + digit_value c)
                        [48 + n mod 10] a = a * k + n) as single.
  { intros n Hn. exists 10. intros a. cbn [fold_left].
    rewrite digit_value_ascii; rewrite Z.mod_small; lia. }
  induction f as [|f IH]; intros n acc Hn.
  - change (2 ^ Z.of_nat 1) with 2 in Hn.
    assert ((n <? 10) = true) as L by (apply Z.ltb_lt; lia).
    rewrite digits_fuel_S, L. exists [48 + n mod 10]. repeat split.
    + discriminate.
    + cbn [forallb]. now rewrite last_digit_ascii.
    + apply single. lia.
  - rewrite digits_fuel_S. destruct (n <? 10) eqn:L.
    + apply Z.ltb_lt in L. exists [48 + n mod 10]. repeat split.
      * discriminate.
      * cbn [forallb]. now rewrite last_digit_ascii.
      * apply single. lia.
    + apply Z.ltb_ge in L.
      assert (0 <= n / 10 < 2 ^ Z.of_nat (S f)) as Hq.
      { replace (Z.of_nat (S (S f))) with (Z.of_nat (S f) + 1) in Hn by lia.
        rewrite Z.pow_add_r in Hn by lia. change (2 ^ 1) with 2 in Hn.
        split; [apply Z.div_pos; lia|].
        apply Z.div_lt_upper_bound; lia. }
      destruct (IH (n / 10) ((48 + n mod 10) :: acc) Hq)
        as (ds & E & _ & Hds & k & Hk).
      exists (ds ++ [48 + n mod 10]). repeat split.
      * rewrite E, <- app_assoc. reflexivity.
      * destruct ds; discriminate.
      * rewrite forallb_app, Hds. cbn [forallb andb].
        now rewrite last_digit_ascii.
      * exists (10 * k). intros a. rewrite fold_left_app, Hk. cbn [fold_left].
        pose proof (Z.mod_pos_bound n 10 ltac:(lia)).
        rewrite digit_value_ascii by lia.
        pose proof (Z.div_mod n 10 ltac:(lia)). lia.
Qed.

(** The digits of a non-negative integer: ASCII, at least one, and they
    read back as the integer. *)
Lemma digits_of_spec n :
  0 <= n ->
  digits_of n <> [] /\ forallb is_ascii_digit (digits_of n) = true
  /\ decimal_value (digits_of n) = n.
Proof.
  intros Hn. unfold digits_of.
  assert (0 <= n < 2 ^ Z.of_nat (S (Z.to_nat (Z.log2 n)))) as B.
  { split; [assumption|].
    pose proof (Z.log2_nonneg n).
    replace (Z.of_nat (S (Z.to_nat (Z.log2 n)))) with (Z.succ (Z.log2 n)) by lia.
    destruct (Z.eq_dec n 0) as [-> | Hz].
    - simpl. lia.
    - apply Z.log2_spec. lia. }
  destruct (digits_fuel_spec _ n [] B) as (ds & E & Hne & Hds & k & Hk).
  rewrite app_nil_r in E. rewrite E. repeat split; auto.
  unfold decimal_value. rewrite Hk. lia.
Qed.

Lemma forallb_ascii_decimal ds :
  forallb is_ascii_digit ds = true -> forallb is_decimal ds = true.
Proof.
  rewrite !forallb_forall. intros H c Hc.
  apply ascii_digit_is_decimal. now apply H.
Qed.

(** A number below [10^k] has at most [k] digits. *)
Lemma digits_fuel_length f :
  forall n acc k,
    0 <= n < 10 ^ k -> 1 <= k ->
    Z.of_nat (List.length (digits_fuel (S f) n acc))
    <= k + Z.of_nat (List.length acc).
Proof.
  induction f as [|f IH]; intros n acc k Hn Hk; rewrite digits_fuel_S.
  - destruct (n <? 10); cbn [digits_fuel List.length]; lia.
  - destruct (n <? 10) eqn:L; [cbn [List.length]; lia|].
    apply Z.ltb_ge in L.
    assert (2 <= k) as K2.
    { destruct (Z.eq_dec k 1) as [-> | Ne]; [|lia].
      change (10 ^ 1) with 10 in Hn. lia. }
    assert (0 <= n / 10 < 10 ^ (k - 1)) as Hq.
    { replace k with (k - 1 + 1) in Hn by lia.
      rewrite Z.pow_add_r in Hn by lia. change (10 ^ 1) with 10 in Hn.
      split; [apply Z.div_pos; lia|].
      apply Z.div_lt_upper_bound; lia. }
    pose proof (IH (n / 10) ((48 + n mod 10) :: acc) (k - 1) Hq ltac:(lia))
      as B.
    cbn [List.length] in B. lia.
Qed.

Lemma digits_of_length n k :
  0 <= n < 10 ^ k -> 1 <= k -> Z.of_nat (List.length (digits_of n)) <= k.
Proof.
  intros Hn Hk. unfold digits_of.
  pose proof (digits_fuel_length (Z.to_nat (Z.log2 n)) n [] k Hn Hk) as B.
  cbn [List.length] in B. lia.
Qed.

(** [str_of_int] writes a literal of [int] whose value is the integer and
    whose digits are no more than the limit when the integer is below
    [10 ^ max_str_digits] in magnitude. *)
Lemma str_of_int_literal n :
  int_literal n (str_of_int n)
  /\ (Z.abs n < 10 ^ max_str_digits ->
      digit_count (str_of_int n) <= max_str_digits).
Proof.
  unfold str_of_int. destruct (n <? 0) eqn:L.
  - apply Z.ltb_lt in L.
    destruct (digits_of_spec (- n) ltac:(lia)) as (Hne & Hds & Hv).
    pose proof (forallb_ascii_decimal _ Hds) as Hdec.
    split.
    + exists [], [45], (digits_of (- n)), [], (- n). repeat split.
      * simpl. now rewrite app_nil_r.
      * right. now right.
      * rewrite <- Hv at 1. now apply digits_int_body.
      * simpl. lia.
    + intros B. rewrite digit_count_cons. change (is_decimal 45) with false.
      rewrite (digit_count_digits _ Hdec).
      pose proof (digits_of_length (- n) max_str_digits
                    ltac:(lia) ltac:(unfold max_str_digits; lia)).
      lia.
  - apply Z.ltb_ge in L.
    destruct (digits_of_spec n L) as (Hne & Hds & Hv).
    pose proof (forallb_ascii_decimal _ Hds) as Hdec.
    split.
    + exists [], [], (digits_of n), [], n. repeat split.
      * simpl. now rewrite app_nil_r.
      * now left.
      * rewrite <- Hv at 1. now apply digits_int_body.
    + intros B. rewrite (digit_count_digits _ Hdec).
      apply digits_of_length; [lia | unfold max_str_digits; lia].
Qed.

(** [int(str(n)) == n] within the limit. *)
Lemma int_of_str_of_int n :
  Z.abs n < 10 ^ max_str_digits -> int_of_str (str_of_int n) = Ok n.
Proof.
  intros B. destruct (str_of_int_literal n) as [L C].
  apply int_of_str_sound; auto.
Qed.

End Digits.

(** ** The pattern of value expressions *)

Section Pattern.

Lemma span_decimal_spec s :
  s = fst (span_decimal s) ++ snd (span_decimal s)
  /\ forallb is_decimal (fst (span_decimal s)) = true
  /\ match snd (span_decimal s) with
     | c :: _ => is_decimal c = false
     | [] => True
     end.
Proof.
  induction s as [|c s (E & Hds & Hrest)]; simpl; [auto|].
  destruct (is_decimal c) eqn:Hc.
  - destruct (span_decimal s) as [ds rest]. simpl in *.
    rewrite Hc. repeat split; auto. now f_equal.
  - simpl. auto.
Qed.

Lemma span_decimal_app ds rest :
  forallb is_decimal ds = true ->
  match rest with c :: _ => is_decimal c = false | [] => True end ->
  span_decimal (ds ++ rest) = (ds, rest).
Proof.
  intros Hds Hrest. induction ds as [|c ds IH]; simpl.
  - destruct rest as [|c r]; [reflexivity|]. simpl. now rewrite Hrest.
  - simpl in Hds. apply andb_true_iff in Hds as [Hc Hds].
    rewrite Hc, (IH Hds). reflexivity.
Qed.

Lemma percent_not_decimal : is_decimal 37 = false.
Proof. reflexivity. Qed.

Lemma sign_not_decimal c : (c =? 43) || (c =? 45) = true -> is_decimal c = false.
Proof.
  intros H. apply orb_true_iff in H as [H | H];
    apply Z.eqb_eq in H; subst; reflexivity.
Qed.

(** Every expression of the grammar matches, with the expected groups. *)
Lemma re_fullmatch_expression sg ds pc :
  sign_part sg -> ds <> [] -> forallb is_decimal ds = true ->
  percent_part pc ->
  re_fullmatch (sg ++ ds ++ pc) = Some (group sg, ds, group pc).
Proof.
  intros Hsg Hne Hds Hpc.
  assert (span_decimal (ds ++ pc) = (ds, pc)) as Hspan.
  { apply span_decimal_app; [assumption|].
    destruct Hpc as [-> | ->]; [exact I | reflexivity]. }
  assert (match ds with
          | [] => None
          | _ :: _ =>
              match pc with
              | [] => Some (group sg, ds, None)
              | [c] => if c =? 37 then Some (group sg, ds, Some [c]) else None
              | _ :: _ :: _ => None
              end
          end = Some (group sg, ds, group pc)) as Hend.
  { destruct ds as [|d0 ds0]; [congruence|].
    destruct Hpc as [-> | ->]; reflexivity. }
  unfold re_fullmatch.
  destruct Hsg as [-> | [-> | ->]].
  - simpl app at 1. destruct ds as [|c ds0]; [congruence|].
    simpl app at 1.
    simpl in Hds. apply andb_true_iff in Hds as [Hc _].
    destruct ((c =? 43) || (c =? 45)) eqn:E.
    + apply sign_not_decimal in E. congruence.
    + cbv iota beta. change ([] ++ (c :: ds0) ++ pc) with ((c :: ds0) ++ pc).
      rewrite Hspan. exact Hend.
  - change ([43] ++ ds ++ pc) with (43 :: ds ++ pc). cbv iota beta.
    change ((43 =? 43) || (43 =? 45)) with true. cbv iota beta.
    rewrite Hspan. exact Hend.
  - change ([45] ++ ds ++ pc) with (45 :: ds ++ pc). cbv iota beta.
    change ((45 =? 43) || (45 =? 45)) with true. cbv iota beta.
    rewrite Hspan. exact Hend.
Qed.

(** Every match is an expression of the grammar, split as the groups say. *)
Lemma re_fullmatch_sound value g0 g1 g2 :
  re_fullmatch value = Some (g0, g1, g2) ->
  exists sg pc,
    value = sg ++ g1 ++ pc /\ sign_part sg /\ g1 <> []
    /\ forallb is_decimal g1 = true /\ percent_part pc
    /\ g0 = group sg /\ g2 = group pc.
Proof.
  unfold re_fullmatch.
  assert (forall gs r1 sg,
             value = sg ++ r1 -> sign_part sg -> gs = group sg ->
             (let '(g1', r2) := span_decimal r1 in
              match g1' with
              | [] => None
              | _ :: _ =>
                  match r2 with
                  | [] => Some (gs, g1', None)
                  | [c] => if c =? 37 then Some (gs, g1', Some [c]) else None
                  | _ :: _ :: _ => None
                  end
              end) = Some (g0, g1, g2) ->
             exists sg pc,
               value = sg ++ g1 ++ pc /\ sign_part sg /\ g1 <> []
               /\ forallb is_decimal g1 = true /\ percent_part pc
               /\ g0 = group sg /\ g2 = group pc) as K.
  { intros gs r1 sg E Hsg Hgs.
    destruct (span_decimal_spec r1) as (E1 & Hds & _).
    destruct (span_decimal r1) as [ds r2]. simpl in E1, Hds.
    destruct ds as [|d0 ds0]; [discriminate|].
    destruct r2 as [|c [|c' r2]]; [| |discriminate].
    - intros [= <- <- <-]. exists sg, []. repeat split; auto.
      + now rewrite E, E1.
      + discriminate.
      + now left.
    - destruct (c =? 37) eqn:E37; [|discriminate].
      apply Z.eqb_eq in E37. subst c.
      intros [= <- <- <-]. exists sg, [37]. repeat split; auto.
      + now rewrite E, E1.
      + discriminate.
      + now right. }
  destruct value as [|c r].
  - apply (K None [] []); [reflexivity | now left | reflexivity].
  - destruct ((c =? 43) || (c =? 45)) eqn:E.
    + apply (K (Some [c]) r [c]); [reflexivity | | reflexivity].
      apply orb_true_iff in E as [E | E]; apply Z.eqb_eq in E; subst;
        [right; now left | right; now right].
    + apply (K None (c :: r) []); [reflexivity | now left | reflexivity].
Qed.

Lemma re_fullmatch_none value :
  re_fullmatch value = None <-> ~ expression is_decimal value.
Proof.
  split.
  - intros H (sg & ds & pc & -> & Hsg & Hne & Hds & Hpc).
    rewrite re_fullmatch_expression in H by assumption. discriminate.
  - intros H. destruct (re_fullmatch value) as [[[g0 g1] g2]|] eqn:E;
      [|reflexivity].
    exfalso. apply H.
    destruct (re_fullmatch_sound _ _ _ _ E)
      as (sg & pc & -> & Hsg & Hne & Hds & Hpc & _).
    now exists sg, g1, pc.
Qed.

Lemma sign_of_plus : sign_of [43] = Plus.
Proof. reflexivity. Qed.

Lemma sign_of_minus : sign_of [45] = Minus.
Proof. reflexivity. Qed.

(** The directive of a match is the one of the classification table. *)
Lemma directive_of_expression sg ds pc :
  sign_part sg -> ds <> [] -> forallb is_decimal ds = true ->
  percent_part pc ->
  Z.of_nat (List.length ds) <= max_str_digits ->
  directive_of (group sg, ds, group pc) = Ok (classified sg ds pc).
Proof.
  intros Hsg Hne Hds Hpc Hlen. unfold directive_of.
  rewrite (int_of_digits ds Hne Hds Hlen). unfold Ok.
  destruct Hsg as [-> | [-> | ->]]; destruct Hpc as [-> | ->]; reflexivity.
Qed.

Lemma parse_expression sg ds pc :
  sign_part sg -> ds <> [] -> forallb is_decimal ds = true ->
  percent_part pc ->
  Z.of_nat (List.length ds) <= max_str_digits ->
  parse (sg ++ ds ++ pc) = Ok (classified sg ds pc).
Proof.
  intros Hsg Hne Hds Hpc Hlen. unfold parse.
  rewrite re_fullmatch_expression by assumption.
  now apply directive_of_expression.
Qed.

(** An expression with more digits than the limit is refused by [int]. *)
Lemma parse_expression_limit sg ds pc :
  sign_part sg -> ds <> [] -> forallb is_decimal ds = true ->
  percent_part pc ->
  max_str_digits < Z.of_nat (List.length ds) ->
  parse (sg ++ ds ++ pc)
  = Raise (ValueError (DigitLimitToInt (Z.of_nat (List.length ds)))).
Proof.
  intros Hsg Hne Hds Hpc Hlen. unfold parse.
  rewrite re_fullmatch_expression by assumption.
  unfold directive_of.
  now rewrite (int_of_digits_limit ds Hne Hds Hlen).
Qed.

Lemma decimal_value_ascii ds :
  forallb is_ascii_digit ds = true ->
  decimal_value ds = fold_left (fun acc c => 10 * acc + (c - 48)) ds 0.
Proof.
  unfold decimal_value. generalize 0.
  induction ds as [|c ds IH]; intros a H; simpl; [reflexivity|].
  simpl in H. apply andb_true_iff in H as [Hc Hds].
  unfold digit_value at 2. rewrite (to_decimal_ascii c Hc).
  now apply IH.
Qed.

End Pattern.

(** ** [str] of an integer *)

Section Printing.

Lemma digits_of_bound n :
  0 <= n -> n < 10 ^ Z.of_nat (List.length (digits_of n)).
Proof.
  intros Hn. destruct (digits_of_spec n Hn) as (Hne & Hds & Hv).
  pose proof (forallb_ascii_decimal _ Hds) as Hdec.
  pose proof (int_body_bound _ _ (digits_int_body _ Hne Hdec)) as B.
  rewrite Hv, (digit_count_digits _ Hdec) in B. lia.
Qed.

(** [str] gives the decimal representation of an integer below the limit
    and refuses the others. *)
Lemma str_int_ok n :
  Z.abs n < 10 ^ max_str_digits -> str_int n = Ok (str_of_int n).
Proof.
  intros B. unfold str_int.
  pose proof (digits_of_length (Z.abs n) max_str_digits
                ltac:(lia) ltac:(unfold max_str_digits; lia)) as L.
  now replace (max_str_digits <? Z.of_nat (List.length (digits_of (Z.abs n))))
    with false by (symmetry; apply Z.ltb_ge; lia).
Qed.

Lemma str_int_limit n :
  10 ^ max_str_digits <= Z.abs n ->
  str_int n = Raise (ValueError DigitLimitToStr).
Proof.
  intros B. unfold str_int.
  pose proof (digits_of_bound (Z.abs n) ltac:(lia)) as U.
  assert (max_str_digits < Z.of_nat (List.length (digits_of (Z.abs n)))) as L.
  { apply (Z.pow_lt_mono_r_iff 10); lia. }
  now replace (max_str_digits <? Z.of_nat (List.length (digits_of (Z.abs n))))
    with true by (symmetry; apply Z.ltb_lt; lia).
Qed.

(** Machine-size integers are far below the limit. *)
Lemma below_limit n : Z.abs n < 2 ^ 63 -> Z.abs n < 10 ^ max_str_digits.
Proof.
  intros H.
  assert (2 ^ 63 <= 10 ^ 63) by (apply Z.pow_le_mono_l; lia).
  assert (10 ^ 63 <= 10 ^ max_str_digits)
    by (apply Z.pow_le_mono_r; unfold max_str_digits; lia).
  lia.
Qed.

(** What [int] returned, [str] writes. *)
Lemma str_int_of_int s v : int_of_str s = Ok v -> str_int v = Ok (str_of_int v).
Proof. intros H. apply str_int_ok. exact (int_of_str_bound s v H). Qed.

Lemma str_of_int_text n : decimal_text n (str_of_int n).
Proof.
  unfold str_of_int, decimal_text. destruct (n <? 0) eqn:L.
  - apply Z.ltb_lt in L.
    destruct (digits_of_spec (- n) ltac:(lia)) as (Hne & Hds & Hv).
    exists (digits_of (- n)). split; [reflexivity|].
    split; [assumption|]. split; [assumption|]. split.
    + rewrite <- decimal_value_ascii by assumption. lia.
    + intros k Hk B. apply digits_of_length; lia.
  - apply Z.ltb_ge in L.
    destruct (digits_of_spec n L) as (Hne & Hds & Hv).
    exists (digits_of n). split; [reflexivity|].
    split; [assumption|]. split; [assumption|]. split.
    + rewrite <- decimal_value_ascii by assumption. lia.
    + intros k Hk B. apply digits_of_length; lia.
Qed.

(** The line that [print] writes for an integer reads back as the integer. *)
Lemma int_of_printed n :
  Z.abs n < 10 ^ max_str_digits -> int_of_str (str_of_int n ++ [10]) = Ok n.
Proof.
  intros B. destruct (str_of_int_literal n) as [L C].
  destruct L as (ws1 & sg & body & ws2 & u & E & H1 & H2 & Hsg & Hb & Hv).
  apply int_of_str_sound.
  - exists ws1, sg, body, (ws2 ++ [10]), u. repeat split; auto.
    + rewrite E, <- !app_assoc. reflexivity.
    + unfold spaces in *. rewrite forallb_app, H2. reflexivity.
  - rewrite digit_count_app. change (digit_count [10]) with 0.
    specialize (C B). lia.
Qed.

End Printing.

(** ** Rounding *)

Section Rounding.

(** [div_half_even n d] is at most half a unit away from [n / d], and even
    when exactly half a unit away. *)
Lemma div_half_even_spec n d :
  0 < d ->
  - d <= 2 * (d * div_half_even n d - n) <= d
  /\ (2 * (d * div_half_even n d - n) = d
      \/ 2 * (d * div_half_even n d - n) = - d ->
      Z.even (div_half_even n d) = true).
Proof.
  intros Hd. unfold div_half_even.
  pose proof (Z.div_mod n d ltac:(lia)) as E.
  pose proof (Z.mod_pos_bound n d Hd) as B.
  set (q := n / d) in *. set (r := n mod d) in *.
  destruct (2 * r <? d) eqn:L1; [|destruct (d <? 2 * r) eqn:L2].
  - apply Z.ltb_lt in L1. split; nia.
  - apply Z.ltb_ge in L1. apply Z.ltb_lt in L2. split; nia.
  - apply Z.ltb_ge in L1. apply Z.ltb_ge in L2.
    destruct (Z.even q) eqn:Ev.
    + split; [nia | auto].
    + split; [nia|]. intros _.
      replace (q + 1) with (Z.succ q) by lia.
      rewrite Z.even_succ, <- Z.negb_even, Ev. reflexivity.
Qed.

(** The nearest integer with ties to even is unique. *)
Lemma div_half_even_unique n d z :
  0 < d ->
  - d <= 2 * (d * z - n) <= d ->
  (2 * (d * z - n) = d \/ 2 * (d * z - n) = - d -> Z.even z = true) ->
  div_half_even n d = z.
Proof.
  intros Hd Hz Hev. unfold div_half_even.
  pose proof (Z.div_mod n d ltac:(lia)) as E.
  pose proof (Z.mod_pos_bound n d Hd) as B.
  set (q := n / d) in *. set (r := n mod d) in *.
  assert (z = q \/ z = q + 1) as [-> | ->] by nia.
  - destruct (2 * r <? d) eqn:L1; [reflexivity|].
    apply Z.ltb_ge in L1.
    assert (2 * r = d) as T by nia.
    replace (d <? 2 * r) with false by (symmetry; apply Z.ltb_ge; lia).
    rewrite Hev; [reflexivity|]. right. nia.
  - destruct (2 * r <? d) eqn:L1.
    + apply Z.ltb_lt in L1. exfalso. nia.
    + destruct (d <? 2 * r) eqn:L2; [reflexivity|].
      apply Z.ltb_ge in L1. apply Z.ltb_ge in L2.
      assert (Z.even (q + 1) = true) as Ev by (apply Hev; left; nia).
      replace (q + 1) with (Z.succ q) in Ev by lia.
      rewrite Z.even_succ, <- Z.negb_even in Ev.
      apply negb_true_iff in Ev. now rewrite Ev.
Qed.

Lemma div_half_even_exact z d : 0 < d -> div_half_even (d * z) d = z.
Proof.
  intros Hd. apply div_half_even_unique; [assumption | lia | lia].
Qed.

(** Rounding a quotient by 100 to a multiple of [1 / (2 * H)] first and to
    an integer next gives the integer nearest to the quotient, as long as
    the intermediate grid is finer than 1/64. *)
Lemma round_twice x H :
  32 <= H ->
  div_half_even (div_half_even (x * (2 * H)) 100) (2 * H)
  = div_half_even x 100.
Proof.
  intros HH.
  destruct (div_half_even_spec x 100 ltac:(lia)) as [Bz Tz].
  set (z := div_half_even x 100) in *.
  assert (100 * z - x = 50 \/ 100 * z - x = - 50
          \/ - 49 <= 100 * z - x <= 49) as [T | [T | N]] by lia.
  - replace (x * (2 * H)) with (100 * (z * (2 * H) - H)) by nia.
    rewrite div_half_even_exact by lia.
    apply div_half_even_unique; [lia | nia |].
    intros _. apply Tz. lia.
  - replace (x * (2 * H)) with (100 * (z * (2 * H) + H)) by nia.
    rewrite div_half_even_exact by lia.
    apply div_half_even_unique; [lia | nia |].
    intros _. apply Tz. lia.
  - destruct (div_half_even_spec (x * (2 * H)) 100 ltac:(lia)) as [Bt _].
    set (t := div_half_even (x * (2 * H)) 100) in *.
    assert (- 49 * (2 * H) <= (100 * z - x) * (2 * H) <= 49 * (2 * H)) as M
        by nia.
    apply div_half_even_unique; [lia | nia | nia].
Qed.

(** The binade found for [n / d] lies below every power of two above it. *)
Lemma ilog2_ratio_upper n d k :
  0 < n -> 0 < d -> 0 <= k -> n < d * 2 ^ k -> ilog2_ratio n d < k.
Proof.
  intros Hn Hd Hk Hlt. unfold ilog2_ratio.
  pose proof (Z.log2_spec n Hn) as [Ln _].
  pose proof (Z.log2_spec d Hd) as [_ Ld].
  pose proof (Z.log2_nonneg n). pose proof (Z.log2_nonneg d).
  set (a := Z.log2 n) in *. set (b := Z.log2 d) in *.
  destruct (Z_lt_le_dec (a - b) k) as [L | L].
  - destruct (if 0 <=? a - b then _ else _); lia.
  - replace (0 <=? a - b) with true by (symmetry; apply Z.leb_le; lia).
    assert (2 ^ k <= 2 ^ (a - b)) as P by (apply Z.pow_le_mono_r; lia).
    assert (0 < 2 ^ k) by (apply Z.pow_pos_nonneg; lia).
    replace (d * 2 ^ (a - b) <=? n) with false
      by (symmetry; apply Z.leb_gt; nia).
    destruct (Z.eq_dec (a - b) k) as [-> | Ne]; [lia|]. exfalso.
    assert (2 ^ (Z.succ b + k) <= 2 ^ a) as Q by (apply Z.pow_le_mono_r; lia).
    rewrite Z.pow_add_r in Q by lia.
    assert (0 < 2 ^ Z.succ b) by (apply Z.pow_pos_nonneg; lia).
    nia.
Qed.

(** A quotient below [2^52] is within the range of binary64, and its
    nearest double lies on a grid of step [2^e] with [e < 0]. *)
Lemma true_divide_below a b k :
  b <> 0 -> a <> 0 -> 0 <= k <= 52 -> Z.abs a < Z.abs b * 2 ^ k ->
  exists e,
    - 1074 <= e <= k - 53
    /\ true_divide a b
       = Ok {| negative := xorb (a <? 0) (b <? 0);
               significand := div_half_even (Z.abs a * 2 ^ (- e)) (Z.abs b);
               exponent := e |}.
Proof.
  intros Hb Ha Hk Hlt.
  pose proof (ilog2_ratio_upper (Z.abs a) (Z.abs b) k
                ltac:(lia) ltac:(lia) ltac:(lia) Hlt) as U.
  unfold true_divide, nearest_double.
  replace (b =? 0) with false by (symmetry; apply Z.eqb_neq; lia).
  replace (a =? 0) with false by (symmetry; apply Z.eqb_neq; lia).
  set (e := Z.max (ilog2_ratio (Z.abs a) (Z.abs b) - 52) (-1074)).
  assert (- 1074 <= e <= k - 53) as He by (unfold e; lia).
  replace (0 <=? e) with false by (symmetry; apply Z.leb_gt; lia).
  exists e. split; [exact He | reflexivity].
Qed.

Lemma true_divide_zero b :
  b <> 0 ->
  true_divide 0 b
  = Ok {| negative := b <? 0; significand := 0; exponent := 0 |}.
Proof.
  intros Hb. unfold true_divide.
  replace (b =? 0) with false by (symmetry; apply Z.eqb_neq; lia).
  reflexivity.
Qed.

(** [round(x / 100)] is exact below [100 * 2^47]. *)
Lemma round_percent_exact x :
  0 <= x < 100 * 2 ^ 47 ->
  exists q, true_divide x 100 = Ok q /\ round q = div_half_even x 100.
Proof.
  intros Hx. destruct (Z.eq_dec x 0) as [-> | Hz].
  - eexists. split; [apply true_divide_zero; lia | reflexivity].
  - destruct (true_divide_below x 100 47) as (e & He & E); try lia.
    eexists. split; [exact E|].
    unfold round, round_scaled. cbn [negative significand exponent].
    replace (x <? 0) with false by (symmetry; apply Z.ltb_ge; lia).
    cbn [xorb Z.ltb Z.compare].
    replace (0 <=? e) with false by (symmetry; apply Z.leb_gt; lia).
    rewrite Z.abs_eq by lia. change (Z.abs 100) with 100.
    rewrite Z.mul_1_l.
    replace (- e) with (1 + (- e - 1)) by lia.
    rewrite Z.pow_add_r by lia. change (2 ^ 1) with 2.
    apply round_twice.
    change 32 with (2 ^ 5). apply Z.pow_le_mono_r; lia.
Qed.

End Rounding.

(** ** More on rounding and on the range of doubles *)

Section Range.

Lemma div_half_even_mono n n' d :
  0 < d -> n <= n' -> div_half_even n d <= div_half_even n' d.
Proof.
  intros Hd Hn. destruct (Z.eq_dec n n') as [-> | Ne]; [lia|].
  destruct (div_half_even_spec n d Hd) as [B _].
  destruct (div_half_even_spec n' d Hd) as [B' _].
  nia.
Qed.

Lemma div_half_even_between n d lo hi :
  0 < d -> d * lo <= n <= d * hi -> lo <= div_half_even n d <= hi.
Proof.
  intros Hd [L H]. split.
  - rewrite <- (div_half_even_exact lo d Hd). now apply div_half_even_mono.
  - rewrite <- (div_half_even_exact hi d Hd). now apply div_half_even_mono.
Qed.

(** The binade found for [n / d] is not below a power of two that the
    quotient reaches. *)
Lemma ilog2_ratio_lower n d k :
  0 < n -> 0 < d -> 0 <= k -> d * 2 ^ k <= n -> k <= ilog2_ratio n d.
Proof.
  intros Hn Hd Hk Hle. unfold ilog2_ratio.
  pose proof (Z.log2_spec n Hn) as [_ Ln].
  pose proof (Z.log2_spec d Hd) as [Ld _].
  pose proof (Z.log2_nonneg n). pose proof (Z.log2_nonneg d).
  set (a := Z.log2 n) in *. set (b := Z.log2 d) in *.
  assert (0 < 2 ^ k) by (apply Z.pow_pos_nonneg; lia).
  assert (k <= a - b) as L.
  { destruct (Z_lt_le_dec (a - b) k) as [C | C]; [exfalso | lia].
    assert (2 ^ Z.succ a <= 2 ^ (b + k)) as P
        by (apply Z.pow_le_mono_r; lia).
    rewrite Z.pow_add_r in P by lia. nia. }
  destruct (Z.eq_dec k (a - b)) as [E | Ne].
  - rewrite <- E.
    replace (0 <=? k) with true by (symmetry; apply Z.leb_le; lia).
    replace (d * 2 ^ k <=? n) with true by (symmetry; apply Z.leb_le; lia).
    lia.
  - destruct (if 0 <=? a - b then _ else _); lia.
Qed.

(** The quotient reaches the power of two of its binade. *)
Lemma ilog2_ratio_floor n d :
  0 < n -> 0 < d -> 0 <= ilog2_ratio n d -> d * 2 ^ ilog2_ratio n d <= n.
Proof.
  intros Hn Hd. unfold ilog2_ratio.
  pose proof (Z.log2_spec n Hn) as [Ln _].
  pose proof (Z.log2_spec d Hd) as [_ Ld].
  pose proof (Z.log2_nonneg n). pose proof (Z.log2_nonneg d).
  set (a := Z.log2 n) in *. set (b := Z.log2 d) in *.
  destruct (0 <=? a - b) eqn:S.
  - apply Z.leb_le in S.
    destruct (d * 2 ^ (a - b) <=? n) eqn:C.
    + intros _. now apply Z.leb_le.
    + intros P.
      assert (0 < 2 ^ (a - b - 1)) by (apply Z.pow_pos_nonneg; lia).
      assert (2 ^ a = 2 ^ Z.succ b * 2 ^ (a - b - 1)) as E.
      { rewrite <- Z.pow_add_r by lia. f_equal. lia. }
      nia.
  - apply Z.leb_gt in S. destruct (d <=? n * 2 ^ (- (a - b))); lia.
Qed.

(** A quotient that reaches [2^1024] is too large for a double. *)
Lemma true_divide_overflow a b :
  b <> 0 -> Z.abs b * 2 ^ 1024 <= Z.abs a ->
  true_divide a b = Raise OverflowError.
Proof.
  intros Hb Hle.
  assert (0 < Z.abs b) as Pb by lia.
  assert (0 < Z.abs a) as Pa.
  { assert (0 < 2 ^ 1024) by (apply Z.pow_pos_nonneg; lia). nia. }
  pose proof (ilog2_ratio_lower (Z.abs a) (Z.abs b) 1024
                Pa Pb ltac:(lia) Hle) as L.
  pose proof (ilog2_ratio_floor (Z.abs a) (Z.abs b) Pa Pb ltac:(lia)) as F.
  unfold true_divide, nearest_double.
  replace (b =? 0) with false by (symmetry; apply Z.eqb_neq; lia).
  replace (a =? 0) with false by (symmetry; apply Z.eqb_neq; lia).
  set (i := ilog2_ratio (Z.abs a) (Z.abs b)) in *.
  replace (Z.max (i - 52) (-1074)) with (i - 52) by lia.
  replace (0 <=? i - 52) with true by (symmetry; apply Z.leb_le; lia).
  cbv iota beta.
  assert (0 < 2 ^ (i - 52)) as Pe by (apply Z.pow_pos_nonneg; lia).
  assert (2 ^ i = 2 ^ (i - 52) * 2 ^ 52) as Ei.
  { rewrite <- Z.pow_add_r by lia. f_equal. lia. }
  assert (2 ^ 52 <= div_half_even (Z.abs a) (Z.abs b * 2 ^ (i - 52))) as M.
  { apply div_half_even_between with (hi := Z.abs a); [nia|].
    split; [nia|].
    assert (1 <= Z.abs b * 2 ^ (i - 52)) by nia.
    assert (0 <= Z.abs a) by lia. nia. }
  assert (2 ^ 1024 <= 2 ^ i) as Q by (apply Z.pow_le_mono_r; lia).
  set (m := div_half_even (Z.abs a) (Z.abs b * 2 ^ (i - 52))) in *.
  assert (2 ^ 1024 <= m * 2 ^ (i - 52)) as O by nia.
  apply Z.leb_le in O. rewrite O. reflexivity.
Qed.

End Range.

(** ** Reading a file as text *)

Section TextFiles.

Lemma newlines_other c r :
  c <> 13 -> universal_newlines (c :: r) = c :: universal_newlines r.
Proof.
  intros H. cbn [universal_newlines].
  now replace (c =? 13) with false by (symmetry; now apply Z.eqb_neq).
Qed.

Lemma newlines_crlf r :
  universal_newlines (13 :: 10 :: r) = 10 :: universal_newlines r.
Proof. reflexivity. Qed.

Lemma newlines_cr c r :
  c <> 10 ->
  universal_newlines (13 :: c :: r) = 10 :: universal_newlines (c :: r).
Proof.
  intros H.
  change (universal_newlines (13 :: c :: r))
    with (10 :: (if c =? 10 then universal_newlines r
                 else universal_newlines (c :: r))).
  now replace (c =? 10) with false by (symmetry; now apply Z.eqb_neq).
Qed.

(** Induction along the way [universal_newlines] reads its argument. *)
Lemma newlines_ind (P : str -> Prop) :
  P [] ->
  (forall c r, c <> 13 -> P r -> P (c :: r)) ->
  P [13] ->
  (forall r, P r -> P (13 :: 10 :: r)) ->
  (forall c r, c <> 10 -> P (c :: r) -> P (13 :: c :: r)) ->
  forall s, P s.
Proof.
  intros Hnil Hother Hend Hcrlf Hcr.
  assert (forall n s, (List.length s <= n)%nat -> P s) as A.
  { induction n as [|n IH]; intros s Hs.
    - destruct s; [exact Hnil | simpl in Hs; lia].
    - destruct s as [|c r]; [exact Hnil|]. simpl in Hs.
      destruct (Z.eq_dec c 13) as [-> | Hc].
      + destruct r as [|c' r']; [exact Hend|]. simpl in Hs.
        destruct (Z.eq_dec c' 10) as [-> | Hc'].
        * apply Hcrlf. apply IH. lia.
        * apply Hcr; [exact Hc'|]. apply IH. simpl. lia.
      + apply Hother; [exact Hc|]. apply IH. lia. }
  intros s. now apply (A (List.length s)).
Qed.

(** What [universal_newlines] makes of the first character. *)
Lemma newlines_head c r :
  exists t, universal_newlines (c :: r) = (if c =? 13 then 10 else c) :: t.
Proof.
  cbn [universal_newlines]. destruct (c =? 13); eauto.
Qed.

Lemma not_decimal_13 c d : to_decimal c = Some d -> c <> 13.
Proof. intros H ->. vm_compute in H. discriminate. Qed.

Lemma lstrip_newlines s :
  lstrip (universal_newlines s) = universal_newlines (lstrip s).
Proof.
  induction s as [|c r Hc IH| |r IH|c r Hc IH] using newlines_ind.
  - reflexivity.
  - rewrite (newlines_other c r Hc). cbn [lstrip].
    destruct (int_space c); [exact IH | now rewrite newlines_other].
  - reflexivity.
  - rewrite newlines_crlf. cbn [lstrip].
    change (int_space 10) with true. change (int_space 13) with true.
    exact IH.
  - rewrite (newlines_cr c r Hc).
    change (lstrip (10 :: universal_newlines (c :: r)))
      with (lstrip (universal_newlines (c :: r))).
    change (lstrip (13 :: c :: r)) with (lstrip (c :: r)).
    exact IH.
Qed.

Lemma spaces_newlines s :
  forallb int_space (universal_newlines s) = forallb int_space s.
Proof.
  induction s as [|c r Hc IH| |r IH|c r Hc IH] using newlines_ind.
  - reflexivity.
  - rewrite (newlines_other c r Hc). cbn [forallb]. now rewrite IH.
  - reflexivity.
  - rewrite newlines_crlf. cbn [forallb].
    change (int_space 10) with true. change (int_space 13) with true.
    exact IH.
  - rewrite (newlines_cr c r Hc).
    change (forallb int_space (10 :: universal_newlines (c :: r)))
      with (forallb int_space (universal_newlines (c :: r))).
    change (forallb int_space (13 :: c :: r))
      with (forallb int_space (c :: r)).
    exact IH.
Qed.

Lemma scan_newlines r :
  forall acc b,
    scan_digits acc b (universal_newlines r)
    = match scan_digits acc b r with
      | Some (v, rest) => Some (v, universal_newlines rest)
      | None => None
      end.
Proof.
  induction r as [|c r IH]; intros acc b.
  - cbn. destruct b; reflexivity.
  - destruct (to_decimal c) as [d|] eqn:Hd.
    + rewrite (newlines_other c r (not_decimal_13 c d Hd)).
      cbn [scan_digits]. rewrite Hd. apply IH.
    + destruct (Z.eq_dec c 95) as [-> | Hu].
      * rewrite newlines_other by discriminate.
        cbn [scan_digits]. change (to_decimal 95) with (@None Z).
        change (95 =? 95) with true. cbv iota.
        destruct b; [reflexivity | apply IH].
      * destruct (newlines_head c r) as [t Et].
        cbn [scan_digits]. rewrite Hd, Et.
        replace (c =? 95) with false by (symmetry; now apply Z.eqb_neq).
        cbn [scan_digits].
        assert (to_decimal (if c =? 13 then 10 else c) = None) as Hd'.
        { destruct (c =? 13); [reflexivity | exact Hd]. }
        assert (((if c =? 13 then 10 else c) =? 95) = false) as Hu'.
        { destruct (c =? 13); [reflexivity | now apply Z.eqb_neq]. }
        rewrite Hd', Hu'. destruct b; [reflexivity | now rewrite Et].
Qed.

Lemma run_digits_newlines r :
  run_digits (universal_newlines r) = run_digits r.
Proof.
  induction r as [|c r IH]; [reflexivity|].
  destruct (to_decimal c) as [d|] eqn:Hd.
  - rewrite (newlines_other c r (not_decimal_13 c d Hd)).
    cbn [run_digits]. now rewrite IH.
  - destruct (Z.eq_dec c 95) as [-> | Hu].
    + rewrite newlines_other by discriminate.
      cbn [run_digits]. now rewrite IH.
    + destruct (newlines_head c r) as [t Et]. rewrite Et.
      cbn [run_digits]. unfold is_decimal. rewrite Hd.
      replace (c =? 95) with false by (symmetry; now apply Z.eqb_neq).
      assert (to_decimal (if c =? 13 then 10 else c) = None) as Hd'.
      { destruct (c =? 13); [reflexivity | exact Hd]. }
      assert (((if c =? 13 then 10 else c) =? 95) = false) as Hu'.
      { destruct (c =? 13); [reflexivity | now apply Z.eqb_neq]. }
      now rewrite Hd', Hu'.
Qed.

(** Universal newlines change nothing for [int] but the text it quotes:
    they turn whitespace into whitespace. *)
Lemma int_of_str_newlines s :
  int_of_str (universal_newlines s)
  = requote (universal_newlines s) (int_of_str s).
Proof.
  unfold int_of_str. rewrite lstrip_newlines.
  destruct (lstrip_split s) as (ws & _ & _ & Hhead).
  set (t := universal_newlines s).
  assert (forall neg s2,
             match universal_newlines s2 with
             | c :: r =>
                 match to_decimal c with
                 | Some d =>
                     match scan_digits d false r with
                     | Some (v, rest) =>
                         if max_str_digits <? 1 + run_digits r
                         then Raise (ValueError
                                       (DigitLimitToInt (1 + run_digits r)))
                         else if forallb int_space rest
                         then Ok (if neg : bool then - v else v)
                         else Raise (ValueError (InvalidLiteral t))
                     | None => Raise (ValueError (InvalidLiteral t))
                     end
                 | None => Raise (ValueError (InvalidLiteral t))
                 end
             | [] => Raise (ValueError (InvalidLiteral t))
             end
             = requote t
                 match s2 with
                 | c :: r =>
                     match to_decimal c with
                     | Some d =>
                         match scan_digits d false r with
                         | Some (v, rest) =>
                             if max_str_digits <? 1 + run_digits r
                             then Raise (ValueError
                                           (DigitLimitToInt
                                              (1 + run_digits r)))
                             else if forallb int_space rest
                             then Ok (if neg then - v else v)
                             else Raise (ValueError (InvalidLiteral s))
                         | None => Raise (ValueError (InvalidLiteral s))
                         end
                     | None => Raise (ValueError (InvalidLiteral s))
                     end
                 | [] => Raise (ValueError (InvalidLiteral s))
                 end) as K.
  { intros neg s2. destruct s2 as [|c r]; [reflexivity|].
    destruct (to_decimal c) as [d|] eqn:Hd.
    - rewrite (newlines_other c r (not_decimal_13 c d Hd)), Hd.
      rewrite scan_newlines, run_digits_newlines.
      destruct (scan_digits d false r) as [[v rest]|]; [|reflexivity].
      destruct (max_str_digits <? 1 + run_digits r); [reflexivity|].
      rewrite spaces_newlines.
      destruct (forallb int_space rest); reflexivity.
    - destruct (newlines_head c r) as [u Eu]. rewrite Eu.
      assert (to_decimal (if c =? 13 then 10 else c) = None) as Hd'.
      { destruct (c =? 13); [reflexivity | exact Hd]. }
      now rewrite Hd'. }
  destruct (lstrip s) as [|c r].
  - reflexivity.
  - assert (c <> 13) as Hc by (intros ->; discriminate Hhead).
    rewrite (newlines_other c r Hc).
    destruct (c =? 43); [exact (K false r)|].
    destruct (c =? 45); [exact (K true r)|].
    pose proof (K false (c :: r)) as K'.
    rewrite (newlines_other c r Hc) in K'. exact K'.
Qed.

Lemma space_scalar c : int_space c = true -> is_scalar c = true.
Proof.
  intros H. apply int_space_listed in H.
  assert (forallb is_scalar space_list = true) as A by (vm_compute; reflexivity).
  rewrite forallb_forall in A. now apply A.
Qed.

Lemma decimal_scalar c : is_decimal c = true -> is_scalar c = true.
Proof.
  unfold is_decimal, to_decimal.
  destruct (find _ decimal_zeros) as [z|] eqn:E; [|discriminate].
  intros _. apply find_some in E as [Hin E].
  apply andb_true_iff in E as [E1 E2].
  apply Z.leb_le in E1. apply Z.ltb_lt in E2.
  assert (forallb (fun z => (0 <=? z)
                            && ((z + 9 <? 0xD800)
                                || ((0xE000 <=? z) && (z + 9 <=? 0x10FFFF))))
                  decimal_zeros = true) as A by (vm_compute; reflexivity).
  rewrite forallb_forall in A. specialize (A z Hin).
  apply andb_true_iff in A as [A0 A1]. apply Z.leb_le in A0.
  unfold is_scalar. apply orb_true_iff.
  apply orb_true_iff in A1 as [A1 | A1].
  - apply Z.ltb_lt in A1. left. apply andb_true_iff.
    split; [apply Z.leb_le | apply Z.ltb_lt]; lia.
  - apply andb_true_iff in A1 as [A1 A2].
    apply Z.leb_le in A1. apply Z.leb_le in A2.
    right. apply andb_true_iff. split; apply Z.leb_le; lia.
Qed.

(** A literal of [int] can be decoded. *)
Lemma literal_scalar v s : int_literal v s -> forallb is_scalar s = true.
Proof.
  intros (ws1 & sg & body & ws2 & u & -> & H1 & H2 & Hsg & Hb & _).
  assert (forall ws, spaces ws -> forallb is_scalar ws = true) as S.
  { intros ws Hws. unfold spaces in Hws. rewrite forallb_forall in *.
    intros c Hc. apply space_scalar. now apply Hws. }
  rewrite !forallb_app, (S ws1 H1), (S ws2 H2).
  assert (forallb is_scalar sg = true) as ->
      by (destruct Hsg as [-> | [-> | ->]]; reflexivity).
  assert (forallb is_scalar body = true) as ->; [|reflexivity].
  pose proof (body_chars u body Hb) as Hc.
  rewrite forallb_forall in *. intros c Hin. specialize (Hc c Hin).
  apply orb_true_iff in Hc as [Hc | Hc].
  - now apply decimal_scalar.
  - apply Z.eqb_eq in Hc. now subst.
Qed.

Lemma int_text_scalar s v : int_of_str s = Ok v -> forallb is_scalar s = true.
Proof.
  intros H. apply int_of_str_complete in H as [L _].
  exact (literal_scalar v s L).
Qed.

(** What a reader makes of a file, in terms of [int] on its content. *)
Lemma read_int_gen n :
  read_int n
  = if forallb is_scalar (content n)
    then requote (universal_newlines (content n)) (int_of_str (content n))
    else Raise (ValueError CannotDecode).
Proof.
  unfold read_int, read_text.
  destruct (forallb is_scalar (content n)); [|reflexivity].
  apply int_of_str_newlines.
Qed.

Lemma read_int_ok n v : int_of_str (content n) = Ok v -> read_int n = Ok v.
Proof.
  intros H. rewrite read_int_gen, (int_text_scalar _ _ H), H. reflexivity.
Qed.

Lemma read_int_ok_inv n v : read_int n = Ok v -> int_of_str (content n) = Ok v.
Proof.
  rewrite read_int_gen.
  destruct (forallb is_scalar (content n)); [|discriminate].
  destruct (int_of_str (content n)) as [v'|e]; [auto|].
  destruct e as [m| | | | |]; try discriminate. destruct m; discriminate.
Qed.

(** A literal with more digits than the limit is refused for that. *)
Lemma read_int_limit n v :
  int_literal v (content n) ->
  max_str_digits < digit_count (content n) ->
  read_int n = Raise (ValueError (DigitLimitToInt (digit_count (content n)))).
Proof.
  intros L C.
  now rewrite read_int_gen, (literal_scalar _ _ L), (int_of_str_limit v _ L C).
Qed.

(** Content that is no literal makes the reader raise [ValueError]: the
    one of [int] about an invalid literal, quoting the text that was read,
    when the content can be decoded and its digits are within the limit. *)
Lemma read_int_not_literal n :
  (forall v, ~ int_literal v (content n)) ->
  exists m,
    read_int n = Raise (ValueError m)
    /\ (forallb is_scalar (content n) = true ->
        digit_count (content n) <= max_str_digits ->
        m = InvalidLiteral (universal_newlines (content n))).
Proof.
  intros H. rewrite read_int_gen.
  destruct (forallb is_scalar (content n)).
  - destruct (not_literal_cases _ H) as [E | (k & Hk & E)]; rewrite E.
    + eexists. split; [reflexivity|]. reflexivity.
    + exists (DigitLimitToInt k). split; [reflexivity|]. intros _ C. lia.
  - exists CannotDecode. split; [reflexivity|]. discriminate.
Qed.

(** A reader logs its [open] and then fails on the file or returns what
    [int] makes of the text. *)
Lemma reader_gen f w :
  reader f w = (read_value f w, log (OpenRead f) w).
Proof.
  unfold read_value.
  destruct f; cbn [reader node_of];
    unfold read_brightness, read_max_brightness, bind, read_file, lift,
           read_int;
    cbn [node_of];
    match goal with |- context [readable ?n] => destruct (readable n) end;
    try reflexivity;
    match goal with |- context [read_text ?n] => destruct (read_text n) end;
    reflexivity.
Qed.

Lemma read_value_ok f w v :
  readable (node_of f w) = true ->
  int_of_str (content (node_of f w)) = Ok v ->
  read_value f w = Ok v.
Proof.
  intros Hr Hv. unfold read_value. now rewrite Hr, (read_int_ok _ v Hv).
Qed.

Lemma read_value_closed f w :
  readable (node_of f w) = false -> read_value f w = Raise (OSError (path f)).
Proof. intros H. unfold read_value. now rewrite H. Qed.

Lemma reader_ok f w v :
  readable (node_of f w) = true ->
  int_of_str (content (node_of f w)) = Ok v ->
  reader f w = (Ok v, log (OpenRead f) w).
Proof.
  intros Hr Hv. now rewrite reader_gen, (read_value_ok f w v Hr Hv).
Qed.

End TextFiles.

(** ** Running the program *)

Section Running.


Lemma read_max_brightness_ok w v :
  readable (max_brightness_node w) = true ->
  int_of_str (content (max_brightness_node w)) = Ok v ->
  read_max_brightness w = (Ok v, log (OpenRead max_brightness) w).
Proof. exact (reader_ok max_brightness w v). Qed.

(** What the groups must be for each directive. *)
Lemma directive_of_inv g d :
  directive_of g = Ok d ->
  exists n, int_of_str (snd (fst g)) = Ok n
    /\ match fst (fst g), snd g with
       | None, None => d = Absolute n
       | None, Some _ => d = AbsolutePercent n
       | Some s, None => d = Relative (sign_of s) n
       | Some s, Some _ => d = RelativePercent (sign_of s) n
       end.
Proof.
  destruct g as [[g0 g1] g2]. unfold directive_of. simpl.
  destruct (int_of_str g1) as [n|e]; [|discriminate].
  intros [= <-]. exists n. split; [reflexivity|].
  destruct g0, g2; reflexivity.
Qed.

Lemma apply_sign_of s cur delta :
  (if str_eqb s (lit "+") then cur + delta else cur - delta)
  = apply_sign (sign_of s) cur delta.
Proof. unfold sign_of. destruct (str_eqb s (lit "+")); reflexivity. Qed.

Lemma read_brightness_gen w :
  read_brightness w = (read_value brightness w, log (OpenRead brightness) w).
Proof. exact (reader_gen brightness w). Qed.

Lemma read_max_brightness_gen w :
  read_max_brightness w
  = (read_value max_brightness w, log (OpenRead max_brightness) w).
Proof. exact (reader_gen max_brightness w). Qed.

(** Division by 100 either overflows or yields a double. *)
Lemma true_divide_100 x :
  true_divide x 100 = Raise OverflowError \/ exists q, true_divide x 100 = Ok q.
Proof.
  unfold true_divide. change (100 =? 0) with false. cbv iota.
  destruct (x =? 0); [right; eauto|].
  destruct (nearest_double (Z.abs x) (Z.abs 100)) as [m e].
  destruct ((0 <=? e) && (2 ^ 1024 <=? m * 2 ^ e)); [now left | right; eauto].
Qed.

(** What [int] makes of the digits that the pattern captures. *)
Lemma matched_digits value g0 g1 g2 :
  re_fullmatch value = Some (g0, g1, g2) ->
  int_of_str g1
  = if Z.of_nat (List.length g1) <=? max_str_digits
    then Ok (decimal_value g1)
    else Raise (ValueError (DigitLimitToInt (Z.of_nat (List.length g1)))).
Proof.
  intros H.
  destruct (re_fullmatch_sound _ _ _ _ H) as (sg & pc & _ & _ & Hne & Hds & _).
  destruct (Z.of_nat (List.length g1) <=? max_str_digits) eqn:L.
  - apply Z.leb_le in L. now apply int_of_digits.
  - apply Z.leb_gt in L. now apply int_of_digits_limit.
Qed.

Lemma matched_digits_are_read value g0 g1 g2 :
  re_fullmatch value = Some (g0, g1, g2) ->
  Z.of_nat (List.length g1) <= max_str_digits ->
  int_of_str g1 = Ok (decimal_value g1).
Proof.
  intros H L. rewrite (matched_digits _ _ _ _ H).
  now replace (Z.of_nat (List.length g1) <=? max_str_digits) with true
    by (symmetry; now apply Z.leb_le).
Qed.

(** The four shapes of [new_brightness_of], with the readers run. *)
Lemma new_brightness_plain g1 w :
  new_brightness_of (None, g1, None) w = (int_of_str g1, w).
Proof.
  unfold new_brightness_of, bind, ret, lift.
  destruct (int_of_str g1); reflexivity.
Qed.

Lemma new_brightness_percent g1 pc w :
  new_brightness_of (None, g1, Some pc) w
  = (match read_value max_brightness w with
     | inr e => inr e
     | inl max =>
         match int_of_str g1 with
         | inr e => inr e
         | inl n =>
             match true_divide (n * max) 100 with
             | inl q => Ok (round q)
             | inr e => inr e
             end
         end
     end, log (OpenRead max_brightness) w).
Proof.
  unfold new_brightness_of, bind, ret, lift, operand.
  rewrite read_max_brightness_gen.
  destruct (read_value max_brightness w); [|reflexivity].
  destruct (int_of_str g1); [|reflexivity].
  unfold ret, Ok. cbv beta iota.
  destruct (true_divide _ 100); reflexivity.
Qed.

Lemma new_brightness_signed sg g1 w :
  new_brightness_of (Some sg, g1, None) w
  = (match read_value brightness w with
     | inr e => inr e
     | inl cur =>
         match int_of_str g1 with
         | inr e => inr e
         | inl n => Ok (apply_sign (sign_of sg) cur n)
         end
     end, log (OpenRead brightness) w).
Proof.
  unfold new_brightness_of, bind, ret, lift, operand.
  rewrite read_brightness_gen.
  destruct (read_value brightness w); [|reflexivity].
  destruct (int_of_str g1); [|reflexivity].
  unfold ret, Ok. cbv beta iota. now rewrite apply_sign_of.
Qed.

Lemma new_brightness_signed_percent sg g1 pc w :
  new_brightness_of (Some sg, g1, Some pc) w
  = match read_value brightness w with
    | inr e => (inr e, log (OpenRead brightness) w)
    | inl cur =>
        (match read_value max_brightness w with
         | inr e => inr e
         | inl max =>
             match int_of_str g1 with
             | inr e => inr e
             | inl n =>
                 match true_divide (n * max) 100 with
                 | inl q => Ok (apply_sign (sign_of sg) cur (round q))
                 | inr e => inr e
                 end
             end
         end,
         log (OpenRead max_brightness) (log (OpenRead brightness) w))
    end.
Proof.
  unfold new_brightness_of, bind, ret, lift, operand.
  rewrite read_brightness_gen.
  destruct (read_value brightness w); [|reflexivity].
  rewrite read_max_brightness_gen.
  change (read_value max_brightness (log (OpenRead brightness) w))
    with (read_value max_brightness w).
  destruct (read_value max_brightness w); [|reflexivity].
  destruct (int_of_str g1); [|reflexivity].
  unfold ret, Ok. cbv beta iota.
  destruct (true_divide _ 100); [|reflexivity].
  now rewrite apply_sign_of.
Qed.

(** [set] after a match, in terms of the calculation: the file is opened,
    which empties it, before [str] is asked for the text, and the text is
    written last. *)
Lemma set_after_match value g w :
  re_fullmatch value = Some g ->
  set_current_brightness value w
  = match new_brightness_of g w with
    | (inr e, w1) => (inr e, w1)
    | (inl new, w1) =>
        if writable (brightness_node w1)
        then match str_int new with
             | inr e =>
                 (inr e,
                  set_content brightness [] (log (OpenWrite brightness) w1))
             | inl text =>
                 if accepting (brightness_node w1)
                 then (Ok tt,
                       set_content brightness (text ++ [10])
                                   (log (OpenWrite brightness) w1))
                 else (Raise OSErrorOnWrite,
                       set_content brightness []
                                   (log (OpenWrite brightness) w1))
             end
        else (Raise (OSError (path brightness)),
              log (OpenWrite brightness) w1)
    end.
Proof.
  intros H. unfold set_current_brightness. rewrite H. unfold bind.
  destruct (new_brightness_of g w) as [[new|e] w1]; [|reflexivity].
  unfold open_write. cbn [node_of].
  destruct (writable (brightness_node w1)); [|reflexivity].
  unfold Ok, print_file.
  destruct (str_int new) as [text|e]; [|reflexivity].
  cbn [node_of set_content log brightness_node accepting content].
  destruct (accepting (brightness_node w1)); reflexivity.
Qed.

(** [show], with the readers run. *)
Lemma show_gen w :
  print_current_brightness w
  = match read_value max_brightness w with
    | inr e => (inr e, log (OpenRead max_brightness) w)
    | inl max =>
        let w2 := log (OpenRead brightness) (log (OpenRead max_brightness) w) in
        match read_value brightness w with
        | inr e => (inr e, w2)
        | inl cur =>
            match true_divide (cur * 100) max with
            | inr e => (inr e, w2)
            | inl percentage =>
                match str_int cur with
                | inr e => (inr e, w2)
                | inl cur_text =>
                    match str_int max with
                    | inr e => (inr e, w2)
                    | inl max_text =>
                        print (lit "Current brightness: " ++ cur_text
                                 ++ lit "/" ++ max_text ++ lit " ("
                                 ++ format_2f percentage ++ lit "%)") w2
                    end
                end
            end
        end
    end.
Proof.
  unfold print_current_brightness, bind, lift.
  rewrite read_max_brightness_gen.
  destruct (read_value max_brightness w); [|reflexivity].
  rewrite read_brightness_gen.
  change (read_value brightness (log (OpenRead max_brightness) w))
    with (read_value brightness w).
  destruct (read_value brightness w); [|reflexivity].
  destruct (true_divide _ _); [|reflexivity].
  destruct (str_int _); [|reflexivity].
  destruct (str_int _); reflexivity.
Qed.

(** [show] on readable files holding integers, once the division is done. *)
Lemma show_run w cur max percentage :
  readable (max_brightness_node w) = true ->
  int_of_str (content (max_brightness_node w)) = Ok max ->
  readable (brightness_node w) = true ->
  int_of_str (content (brightness_node w)) = Ok cur ->
  true_divide (cur * 100) max = Ok percentage ->
  main ArgsShow w
  = (Returned,
     {| brightness_node := brightness_node w;
        max_brightness_node := max_brightness_node w;
        stdout :=
          stdout w
          ++ (lit "Current brightness: " ++ str_of_int cur ++ lit "/"
                ++ str_of_int max ++ lit " ("
                ++ format_2f percentage ++ lit "%)")
          ++ [10];
        opened :=
          opened w ++ [OpenRead max_brightness; OpenRead brightness] |}).
Proof.
  intros Hrm Hm Hr Hc Hp. unfold main.
  rewrite show_gen.
  rewrite (read_value_ok max_brightness w max Hrm Hm).
  rewrite (read_value_ok brightness w cur Hr Hc). unfold Ok.
  cbv zeta. rewrite Hp. unfold Ok.
  rewrite (str_int_of_int _ _ Hc), (str_int_of_int _ _ Hm).
  unfold Ok, print.
  cbn [log brightness_node max_brightness_node stdout opened].
  replace ((opened w ++ [OpenRead max_brightness]) ++ [OpenRead brightness])
    with (opened w ++ [OpenRead max_brightness; OpenRead brightness])
    by (rewrite <- app_assoc; reflexivity).
  reflexivity.
Qed.

(** The calculation only opens files for reading. *)
Lemma new_brightness_effect g w :
  brightness_node (snd (new_brightness_of g w)) = brightness_node w
  /\ max_brightness_node (snd (new_brightness_of g w)) = max_brightness_node w
  /\ stdout (snd (new_brightness_of g w)) = stdout w
  /\ exists reads,
       opened (snd (new_brightness_of g w)) = opened w ++ reads
       /\ forallb is_read reads = true.
Proof.
  destruct g as [[[sg|] g1] [pc|]].
  - rewrite new_brightness_signed_percent.
    destruct (read_value brightness w) as [cur|e];
      cbn [snd log brightness_node max_brightness_node stdout opened];
      repeat split.
    + exists [OpenRead brightness; OpenRead max_brightness].
      now rewrite <- app_assoc.
    + now exists [OpenRead brightness].
  - rewrite new_brightness_signed.
    cbn [snd log brightness_node max_brightness_node stdout opened].
    repeat split. now exists [OpenRead brightness].
  - rewrite new_brightness_percent.
    cbn [snd log brightness_node max_brightness_node stdout opened].
    repeat split. now exists [OpenRead max_brightness].
  - rewrite new_brightness_plain. cbn [snd]. repeat split.
    exists []. now rewrite app_nil_r.
Qed.

Lemma new_brightness_absolute g n w :
  directive_of g = Ok (Absolute n) -> new_brightness_of g w = (Ok n, w).
Proof.
  intros H. destruct (directive_of_inv g _ H) as (n' & Hn & Hd).
  destruct g as [[[s|] g1] [pc|]]; simpl in Hn, Hd; try discriminate.
  injection Hd as ->.
  unfold new_brightness_of, bind, ret, lift. now rewrite Hn.
Qed.

Lemma new_brightness_absolute_percent g p w max :
  directive_of g = Ok (AbsolutePercent p) ->
  readable (max_brightness_node w) = true ->
  int_of_str (content (max_brightness_node w)) = Ok max ->
  new_brightness_of g w
  = (match true_divide (p * max) 100 with
     | inl q => Ok (round q)
     | inr e => Raise e
     end, log (OpenRead max_brightness) w).
Proof.
  intros H Hr Hm. destruct (directive_of_inv g _ H) as (n' & Hn & Hd).
  destruct g as [[[s|] g1] [pc|]]; simpl in Hn, Hd; try discriminate.
  injection Hd as ->.
  unfold new_brightness_of, bind, lift, operand, ret, raise.
  rewrite (read_max_brightness_ok w max Hr Hm), Hn. unfold Ok.
  destruct (true_divide (n' * max) 100); reflexivity.
Qed.



End Running.

(* ===================================================================== *)
(** * Part III. The claims                                                *)
(* ===================================================================== *)

(** ** The expression parser *)

(** C1, as stated, fails on a long run of digits: a string of 4301 digits
    [1] is in the grammar, and [int] refuses its digits because they are
    more than the limit, so [set] ends with the usage error. *)
Lemma parse_refuses_long_digit_run :
  expression is_ascii_digit (repeat 49 4301)
  /\ re_fullmatch (repeat 49 4301) = Some (None, repeat 49 4301, None)
  /\ parse (repeat 49 4301) = Raise (ValueError (DigitLimitToInt 4301))
  /\ main (ArgsSet (repeat 49 4301)) (device (lit "650") (lit "1000"))
     = (DocoptExit (DigitLimitToInt 4301), device (lit "650") (lit "1000")).
Proof.
  assert (forallb is_ascii_digit (repeat 49 4301) = true) as Hds
      by (vm_compute; reflexivity).
  assert (repeat 49 4301 <> []) as Hne by discriminate.
  assert (re_fullmatch (repeat 49 4301) = Some (None, repeat 49 4301, None))
    as Hm.
  { pose proof (re_fullmatch_expression [] (repeat 49 4301) []
                  ltac:(now left) Hne (forallb_ascii_decimal _ Hds)
                  ltac:(now left)) as E.
    rewrite app_nil_r in E. exact E. }
  assert (int_of_str (repeat 49 4301)
          = Raise (ValueError (DigitLimitToInt 4301))) as Hi.
  { rewrite (int_of_digits_limit _ Hne (forallb_ascii_decimal _ Hds)).
    - now rewrite repeat_length.
    - rewrite repeat_length. vm_compute. reflexivity. }
  split; [|split; [exact Hm | split]].
  - exists [], (repeat 49 4301), []. rewrite app_nil_r.
    repeat split; auto; now left.
  - unfold parse. rewrite Hm. unfold directive_of. now rewrite Hi.
  - unfold main. rewrite (set_after_match _ _ _ Hm).
    now rewrite new_brightness_plain, Hi.
Qed.

(** C1, amended.  A string made of an optional sign, one or more digits, at
    most 4300 of them, and an optional percent sign parses to the directive
    of the classification table: no sign and no percent gives [Absolute],
    percent only [AbsolutePercent], sign only [Relative] with that sign,
    both [RelativePercent] with that sign; the payload is the digits read
    as a base-10 integer.  With more than 4300 digits [int] raises the
    [ValueError] of its limit on digits, whatever the sign and the percent
    sign. *)
Theorem parse_valid_expression ds :
  ds <> [] -> forallb is_ascii_digit ds = true ->
  let n := fold_left (fun acc c => 10 * acc + (c - 48)) ds 0 in
  (Z.of_nat (List.length ds) <= max_str_digits ->
   parse ds = Ok (Absolute n)
   /\ parse (ds ++ lit "%") = Ok (AbsolutePercent n)
   /\ parse (lit "+" ++ ds) = Ok (Relative Plus n)
   /\ parse (lit "-" ++ ds) = Ok (Relative Minus n)
   /\ parse (lit "+" ++ ds ++ lit "%") = Ok (RelativePercent Plus n)
   /\ parse (lit "-" ++ ds ++ lit "%") = Ok (RelativePercent Minus n))
  /\ (max_str_digits < Z.of_nat (List.length ds) ->
      forall sg pc,
        sign_part sg -> percent_part pc ->
        parse (sg ++ ds ++ pc)
        = Raise (ValueError (DigitLimitToInt (Z.of_nat (List.length ds))))).
Proof.
  intros Hne Hds n.
  pose proof (forallb_ascii_decimal ds Hds) as Hdec.
  assert (decimal_value ds = n) as Hn by now apply decimal_value_ascii.
  split.
  - intros Hlen.
    assert (forall sg pc, sign_part sg -> percent_part pc ->
              parse (sg ++ ds ++ pc) = Ok (classified sg ds pc)) as K
        by (intros; now apply parse_expression).
    assert (sign_part []) as S0 by now left.
    assert (sign_part (lit "+")) as S1 by (right; now left).
    assert (sign_part (lit "-")) as S2 by (right; now right).
    assert (percent_part []) as P0 by now left.
    assert (percent_part (lit "%")) as P1 by now right.
    pose proof (K [] [] S0 P0) as E1.
    pose proof (K [] (lit "%") S0 P1) as E2.
    pose proof (K (lit "+") [] S1 P0) as E3.
    pose proof (K (lit "-") [] S2 P0) as E4.
    pose proof (K (lit "+") (lit "%") S1 P1) as E5.
    pose proof (K (lit "-") (lit "%") S2 P1) as E6.
    rewrite app_nil_r in E1, E3, E4.
    change ([] ++ ds) with ds in E1.
    change ([] ++ ds ++ lit "%") with (ds ++ lit "%") in E2.
    rewrite E1, E2, E3, E4, E5, E6.
    unfold classified. cbn [lit list_ascii_of_string map]. rewrite Hn.
    repeat split.
  - intros Hlen sg pc Hsg Hpc. now apply parse_expression_limit.
Qed.

Lemma parse_valid_expression_witness :
  parse (lit "70") = Ok (Absolute 70)
  /\ parse (lit "70" ++ lit "%") = Ok (AbsolutePercent 70)
  /\ parse (lit "+" ++ lit "70") = Ok (Relative Plus 70)
  /\ parse (lit "-" ++ lit "70") = Ok (Relative Minus 70)
  /\ parse (lit "+" ++ lit "70" ++ lit "%") = Ok (RelativePercent Plus 70)
  /\ parse (lit "-" ++ lit "70" ++ lit "%") = Ok (RelativePercent Minus 70).
Proof.
  apply (proj1 (parse_valid_expression (lit "70")
                  ltac:(discriminate) eq_refl)).
  vm_compute. discriminate.
Defined.

(** C2, as stated, fails on a digit that is not ASCII: the Arabic-Indic
    digit three (U+0663) alone is outside the grammar with the digits 0-9,
    and it is accepted, as the absolute value 3. *)
Lemma parse_accepts_arabic_indic_digit :
  ~ expression is_ascii_digit [0x663]
  /\ re_fullmatch [0x663] = Some (None, [0x663], None)
  /\ parse [0x663] = Ok (Absolute 3).
Proof.
  split; [|split; reflexivity].
  intros (sg & ds & pc & E & Hsg & Hne & Hds & Hpc).
  destruct ds as [|c ds]; [congruence|].
  simpl in Hds. apply andb_true_iff in Hds as [Hc _].
  destruct Hsg as [-> | [-> | ->]]; simpl in E; injection E as E1 E2.
  - subst c. discriminate.
  - discriminate.
  - discriminate.
Qed.

(** C2, amended.  [parse] raises the [ValueError] of a malformed
    expression for exactly the strings that do not match
    [sign? digits percent?] over their whole length, where a digit is any
    Unicode decimal digit (what [\d] matches; 0-9 are among them).  A string
    that matches is accepted when it has at most 4300 digits, with the
    directive of the classification table and the decimal value of its
    digits as payload, whatever the script of the digits; with more digits
    it is refused by [int] with the error of the limit.  The empty string,
    letters, two signs, a sign after the digits, whitespace, a leading
    percent sign and strings of which only a prefix matches are malformed. *)
Theorem parse_rejects_exactly :
  (forall value,
      parse value = Raise (ValueError NoMessage)
      <-> ~ expression is_decimal value)
  /\ (forall sg ds pc,
         sign_part sg -> ds <> [] -> forallb is_decimal ds = true ->
         percent_part pc ->
         parse (sg ++ ds ++ pc)
         = if Z.of_nat (List.length ds) <=? max_str_digits
           then Ok (classified sg ds pc)
           else Raise (ValueError
                         (DigitLimitToInt (Z.of_nat (List.length ds)))))
  /\ (forall value d, parse value = Ok d -> expression is_decimal value)
  /\ (forall value,
         expression is_ascii_digit value -> expression is_decimal value)
  /\ Forall (fun value => parse value = Raise (ValueError NoMessage))
            malformed.
Proof.
  assert (forall sg ds pc,
         sign_part sg -> ds <> [] -> forallb is_decimal ds = true ->
         percent_part pc ->
         parse (sg ++ ds ++ pc)
         = if Z.of_nat (List.length ds) <=? max_str_digits
           then Ok (classified sg ds pc)
           else Raise (ValueError
                         (DigitLimitToInt (Z.of_nat (List.length ds))))) as A.
  { intros sg ds pc Hsg Hne Hds Hpc.
    destruct (Z.of_nat (List.length ds) <=? max_str_digits) eqn:L.
    - apply Z.leb_le in L. now apply parse_expression.
    - apply Z.leb_gt in L. now apply parse_expression_limit. }
  assert (forall value, ~ expression is_decimal value ->
                        parse value = Raise (ValueError NoMessage)) as B.
  { intros value H. apply re_fullmatch_none in H.
    unfold parse. now rewrite H. }
  assert (forall value, expression is_decimal value
                        \/ ~ expression is_decimal value) as D.
  { intros value. destruct (re_fullmatch value) as [[[g0 g1] g2]|] eqn:E.
    - left.
      destruct (re_fullmatch_sound _ _ _ _ E)
        as (sg & pc & -> & Hsg & Hne & Hds & Hpc & _).
      now exists sg, g1, pc.
    - right. now apply re_fullmatch_none. }
  split; [|split; [|split; [|split]]].
  - intros value. split.
    + intros H (sg & ds & pc & -> & Hsg & Hne & Hds & Hpc).
      rewrite (A sg ds pc Hsg Hne Hds Hpc) in H.
      destruct (Z.of_nat (List.length ds) <=? max_str_digits); discriminate.
    + apply B.
  - exact A.
  - intros value d Hd. destruct (D value) as [Hx | Hx]; [assumption|].
    rewrite (B value Hx) in Hd. discriminate.
  - intros value (sg & ds & pc & -> & Hsg & Hne & Hds & Hpc).
    exists sg, ds, pc. repeat split; auto.
    now apply forallb_ascii_decimal.
  - unfold malformed. repeat constructor.
Qed.

Lemma parse_rejects_exactly_witness :
  parse (lit "5%%") = Raise (ValueError NoMessage)
  /\ parse ([0x2D] ++ [0x661; 0x662] ++ lit "%")
     = Ok (RelativePercent Minus 12).
Proof.
  split.
  - apply (proj1 parse_rejects_exactly (lit "5%%")).
    apply re_fullmatch_none. reflexivity.
  - apply (proj1 (proj2 parse_rejects_exactly)
                 [0x2D] [0x661; 0x662] (lit "%")).
    + right. now right.
    + discriminate.
    + reflexivity.
    + now right.
Defined.

(** ** The brightness calculator *)

(** C5. For every integer [n], the new brightness for [Absolute n] is [n]
    whatever the device holds, and the world is left as it was: no file is
    opened, so neither [brightness] nor [max_brightness] is read.  The
    decimal representation of [n] denotes the directive [Absolute n] exactly
    when [n] has at most 4300 digits. *)
Theorem compute_absolute n :
  (forall g w,
      directive_of g = Ok (Absolute n) -> new_brightness_of g w = (Ok n, w))
  /\ (Z.abs n < 10 ^ max_str_digits
      <-> directive_of (None, str_of_int n, None) = Ok (Absolute n)).
Proof.
  split.
  - intros g w H. now apply new_brightness_absolute.
  - split.
    + intros B. unfold directive_of. now rewrite int_of_str_of_int.
    + intros H. destruct (directive_of_inv _ _ H) as (n' & Hn & Hd).
      cbn [fst snd] in Hn, Hd. injection Hd as ->.
      exact (int_of_str_bound _ _ Hn).
Qed.

Lemma compute_absolute_witness :
  new_brightness_of (None, lit "500", None) (device (lit "650") (lit "1000"))
  = (Ok 500, device (lit "650") (lit "1000")).
Proof.
  apply (proj1 (compute_absolute 500)). reflexivity.
Defined.






(** ** Writing the new value *)

Lemma nines_value k :
  decimal_value (repeat 57 k) = 10 ^ Z.of_nat k - 1.
Proof.
  induction k as [|k IH].
  - reflexivity.
  - replace (repeat 57 (S k)) with (repeat 57 k ++ [57])
      by (rewrite <- repeat_cons; reflexivity).
    rewrite decimal_value_snoc, IH.
    change (digit_value 57) with 9.
    replace (Z.of_nat (S k)) with (Z.of_nat k + 1) by lia.
    rewrite Z.pow_add_r by lia. change (10 ^ 1) with 10. lia.
Qed.

Lemma nines_decimal k : forallb is_decimal (repeat 57 k) = true.
Proof. induction k as [|k IH]; [reflexivity | exact IH]. Qed.

(** Adding one to a brightness of as many digits [9] as the limit allows
    gives a value that [str] refuses, after the file was opened. *)
Lemma set_refused_by_str k maximum :
  Z.of_nat k = max_str_digits ->
  new_brightness_of (Some (lit "+"), lit "1", None)
                    (device (repeat 57 k) maximum)
  = (Ok (10 ^ max_str_digits),
     log (OpenRead brightness) (device (repeat 57 k) maximum))
  /\ main (ArgsSet (lit "+1")) (device (repeat 57 k) maximum)
     = (DocoptExit DigitLimitToStr,
        set_content brightness []
          (log (OpenWrite brightness)
               (log (OpenRead brightness) (device (repeat 57 k) maximum)))).
Proof.
  intros Hk. set (w := device (repeat 57 k) maximum).
  assert (re_fullmatch (lit "+1") = Some (Some (lit "+"), lit "1", None))
    as Hm by reflexivity.
  assert (k <> O) as Hk0 by (intros ->; discriminate Hk).
  assert (int_of_str (content (brightness_node w))
          = Ok (10 ^ max_str_digits - 1)) as Hc.
  { change (content (brightness_node w)) with (repeat 57 k).
    rewrite (int_of_digits (repeat 57 k)).
    - now rewrite (nines_value k), Hk.
    - destruct k; [congruence | discriminate].
    - apply nines_decimal.
    - rewrite repeat_length. lia. }
  assert (new_brightness_of (Some (lit "+"), lit "1", None) w
          = (Ok (10 ^ max_str_digits), log (OpenRead brightness) w)) as Hnew.
  { rewrite new_brightness_signed.
    rewrite (read_value_ok brightness w _ eq_refl Hc). unfold Ok.
    change (int_of_str (lit "1")) with (@inl Z exn 1).
    change (sign_of (lit "+")) with Plus. cbv beta iota. unfold apply_sign.
    now rewrite Z.sub_add. }
  split; [exact Hnew|].
  unfold main. rewrite (set_after_match _ _ _ Hm), Hnew. unfold Ok.
  change (writable (brightness_node (log (OpenRead brightness) w))) with true.
  cbv iota.
  rewrite (str_int_limit (10 ^ max_str_digits)); [reflexivity|].
  rewrite Z.abs_eq; [apply Z.le_refl | apply Z.pow_nonneg; lia].
Qed.

(** C6, as stated, fails when the new value has more digits than [str]
    writes: with 4300 digits [9] in the brightness file and the value [+1]
    the calculation gives [10^4300]; the file is opened for writing, which
    empties it, [str] then raises [ValueError], nothing is written and the
    program ends with the usage error. *)
Lemma set_empties_file_when_str_refuses :
  re_fullmatch (lit "+1") = Some (Some (lit "+"), lit "1", None)
  /\ new_brightness_of (Some (lit "+"), lit "1", None)
                       (device (repeat 57 4300) (lit "1000"))
     = (Ok (10 ^ 4300),
        log (OpenRead brightness) (device (repeat 57 4300) (lit "1000")))
  /\ main (ArgsSet (lit "+1")) (device (repeat 57 4300) (lit "1000"))
     = (DocoptExit DigitLimitToStr,
        set_content brightness []
          (log (OpenWrite brightness)
               (log (OpenRead brightness)
                    (device (repeat 57 4300) (lit "1000"))))).
Proof.
  split; [reflexivity|].
  exact (set_refused_by_str 4300 (lit "1000") eq_refl).
Qed.

(** After a [set] that went through, the brightness file holds the line of
    the new value and keeps its permissions; nothing else changed but the
    log of opened files. *)
Lemma set_result value g w new w1 :
  re_fullmatch value = Some g ->
  new_brightness_of g w = (Ok new, w1) ->
  writable (brightness_node w1) = true ->
  accepting (brightness_node w1) = true ->
  Z.abs new < 10 ^ max_str_digits ->
  set_current_brightness value w
  = (Ok tt,
     set_content brightness (str_of_int new ++ [10])
                 (log (OpenWrite brightness) w1)).
Proof.
  intros Hm Hnew Hw Ha Hb.
  rewrite (set_after_match value g w Hm), Hnew. unfold Ok.
  now rewrite Hw, (str_int_ok new Hb), Ha.
Qed.

(** C6, amended.  When the value is an expression of the grammar, its new
    brightness is [new] with at most 4300 digits, and the brightness file
    can be opened for writing and takes what is written, [set] opens the
    file for writing, which empties it, and leaves in it exactly the decimal
    representation of [new] ([-] when [new] is negative, then its digits
    without a leading zero) and one newline: the text [int] reads back as
    [new].  Nothing else bounds [new]: negative values and values above the
    maximum are written as they are; with 10 in the file, [set -30] leaves
    [-20].  The maximum and the standard output are untouched. *)
Theorem set_writes_value value g w new w1 :
  re_fullmatch value = Some g ->
  new_brightness_of g w = (Ok new, w1) ->
  writable (brightness_node w1) = true ->
  accepting (brightness_node w1) = true ->
  Z.abs new < 10 ^ max_str_digits ->
  fst (set_current_brightness value w) = Ok tt
  /\ (exists text,
         decimal_text new text
         /\ content (brightness_node (snd (set_current_brightness value w)))
            = text ++ [10])
  /\ int_of_str
       (content (brightness_node (snd (set_current_brightness value w))))
     = Ok new
  /\ opened (snd (set_current_brightness value w))
     = opened w1 ++ [OpenWrite brightness]
  /\ max_brightness_node (snd (set_current_brightness value w))
     = max_brightness_node w1
  /\ stdout (snd (set_current_brightness value w)) = stdout w1
  /\ (value = lit "-30" -> content (brightness_node w) = lit "10" ++ [10] ->
      readable (brightness_node w) = true ->
      content (brightness_node (snd (set_current_brightness value w)))
      = lit "-20" ++ [10]).
Proof.
  intros Hm Hnew Hw Ha Hb.
  rewrite (set_result value g w new w1 Hm Hnew Hw Ha Hb).
  cbn [fst snd set_content log brightness_node max_brightness_node stdout
       opened content].
  split; [reflexivity|]. split; [|split; [|split; [|split; [|split]]]].
  - exists (str_of_int new). split; [apply str_of_int_text | reflexivity].
  - now apply int_of_printed.
  - reflexivity.
  - reflexivity.
  - reflexivity.
  - intros -> Hc Hr.
    assert (Some g = Some (Some (lit "-"), lit "30", None)) as G
        by (rewrite <- Hm; reflexivity).
    injection G as ->.
    rewrite new_brightness_signed in Hnew.
    assert (int_of_str (content (brightness_node w)) = Ok 10) as Hi
        by (rewrite Hc; reflexivity).
    rewrite (read_value_ok brightness w 10 Hr Hi) in Hnew.
    injection Hnew as <- _. reflexivity.
Qed.

Lemma set_writes_value_witness :
  content
    (brightness_node
       (snd (set_current_brightness (lit "-30")
               (device (lit "10" ++ [10]) (lit "1000" ++ [10])))))
  = lit "-20" ++ [10].
Proof.
  apply (set_writes_value (lit "-30")
           (Some (lit "-"), lit "30", None)
           (device (lit "10" ++ [10]) (lit "1000" ++ [10])) (-20)
           (log (OpenRead brightness)
                (device (lit "10" ++ [10]) (lit "1000" ++ [10])))
           eq_refl eq_refl eq_refl eq_refl).
  - vm_compute. reflexivity.
  - reflexivity.
  - reflexivity.
  - reflexivity.
Defined.

(** ** The command dispatcher *)

Lemma arabic_indic_three_not_ascii : ~ expression is_ascii_digit [0x663].
Proof.
  intros (sg & ds & pc & E & Hsg & Hne & Hds & Hpc).
  destruct ds as [|c ds]; [congruence|].
  simpl in Hds. apply andb_true_iff in Hds as [Hc _].
  destruct Hsg as [-> | [-> | ->]]; simpl in E; injection E as E1 E2.
  - subst c. discriminate.
  - discriminate.
  - discriminate.
Qed.

Lemma main_set_rejected value w :
  ~ expression is_decimal value ->
  main (ArgsSet value) w = (DocoptExit NoMessage, w).
Proof.
  intros H. apply re_fullmatch_none in H.
  unfold main, set_current_brightness. now rewrite H.
Qed.

(** C7, as stated, fails on a digit that is not ASCII: the string made of
    the Arabic-Indic digit three is outside the grammar with the digits
    0-9, yet [set] returns normally after opening the brightness file and
    writing 3 to it. *)
Lemma set_writes_for_arabic_indic_digit :
  ~ expression is_ascii_digit [0x663]
  /\ main (ArgsSet [0x663]) (device (lit "500") (lit "1000"))
     = (Returned,
        set_content brightness (lit "3" ++ [10])
          (log (OpenWrite brightness) (device (lit "500") (lit "1000")))).
Proof.
  split; [exact arabic_indic_three_not_ascii | vm_compute; reflexivity].
Qed.

(** C7, amended.  For every string outside the grammar
    [sign? digits percent?], a digit being any Unicode decimal digit (the
    strings the parser rejects), [set] raises before any file is opened: the
    world is unchanged, nothing is read or written, and the process ends
    through [DocoptExit], the usage error, with a non-zero status. *)
Theorem set_rejects_before_device value w :
  ~ expression is_decimal value ->
  main (ArgsSet value) w = (DocoptExit NoMessage, w)
  /\ opened (snd (main (ArgsSet value) w)) = opened w
  /\ exit_status (fst (main (ArgsSet value) w)) <> 0.
Proof.
  intros H. rewrite (main_set_rejected value w H).
  repeat split. discriminate.
Qed.

Lemma set_rejects_before_device_witness :
  main (ArgsSet (lit "5%%")) (device (lit "500") (lit "1000"))
  = (DocoptExit NoMessage, device (lit "500") (lit "1000"))
  /\ opened (snd (main (ArgsSet (lit "5%%"))
                       (device (lit "500") (lit "1000"))))
     = opened (device (lit "500") (lit "1000"))
  /\ exit_status (fst (main (ArgsSet (lit "5%%"))
                            (device (lit "500") (lit "1000")))) <> 0.
Proof.
  apply (set_rejects_before_device (lit "5%%")).
  apply re_fullmatch_none. reflexivity.
Defined.




(** ** The device readers *)

Lemma signed_digits_literal ws1 sg ds ws2 :
  spaces ws1 -> spaces ws2 -> sign_part sg -> ds <> [] ->
  forallb is_ascii_digit ds = true ->
  int_literal
    (if list_eq_dec Z.eq_dec sg (lit "-")
     then - fold_left (fun acc c => 10 * acc + (c - 48)) ds 0
     else fold_left (fun acc c => 10 * acc + (c - 48)) ds 0)
    (ws1 ++ sg ++ ds ++ ws2).
Proof.
  intros H1 H2 Hsg Hne Hds.
  exists ws1, sg, ds, ws2, (decimal_value ds). repeat split; auto.
  - apply digits_int_body; [assumption | now apply forallb_ascii_decimal].
  - rewrite <- decimal_value_ascii by assumption. reflexivity.
Qed.

(** C9. Each reader returns what [int] makes of the text of its file, read
    with universal newlines: whitespace before and after is skipped (the
    newline at the end of a sysfs file is whitespace), a sign [+] or [-] may
    precede the digits, and the digits are read in base 10, so a file
    holding [650] and a newline yields 650.  The contents that are accepted
    are exactly the literals of [int_literal] with at most 4300 digits:
    whitespace, an optional sign, decimal digits in which single underscores
    may separate two digits, whitespace.  A literal with more digits raises
    the [ValueError] of the limit.  Content that is no literal, like [12 34]
    or [abc], raises [ValueError]: the one of [int] about an invalid
    literal, quoting the text as it was read, when the content can be
    decoded and its digits are within the limit. *)
Theorem readers_parse_like_int f w :
  readable (node_of f w) = true ->
  (forall ws1 sg ds ws2,
      content (node_of f w) = ws1 ++ sg ++ ds ++ ws2 ->
      spaces ws1 -> spaces ws2 -> sign_part sg -> ds <> [] ->
      forallb is_ascii_digit ds = true ->
      Z.of_nat (List.length ds) <= max_str_digits ->
      reader f w
      = (Ok (if list_eq_dec Z.eq_dec sg (lit "-")
             then - fold_left (fun acc c => 10 * acc + (c - 48)) ds 0
             else fold_left (fun acc c => 10 * acc + (c - 48)) ds 0),
         log (OpenRead f) w))
  /\ (content (node_of f w) = lit "650" ++ [10] ->
      reader f w = (Ok 650, log (OpenRead f) w))
  /\ (forall v,
         int_literal v (content (node_of f w))
         /\ digit_count (content (node_of f w)) <= max_str_digits
         <-> reader f w = (Ok v, log (OpenRead f) w))
  /\ (forall v,
         int_literal v (content (node_of f w)) ->
         max_str_digits < digit_count (content (node_of f w)) ->
         reader f w
         = (Raise (ValueError
                     (DigitLimitToInt (digit_count (content (node_of f w))))),
            log (OpenRead f) w))
  /\ ((forall v, ~ int_literal v (content (node_of f w))) ->
      exists m,
        reader f w = (Raise (ValueError m), log (OpenRead f) w)
        /\ (forallb is_scalar (content (node_of f w)) = true ->
            digit_count (content (node_of f w)) <= max_str_digits ->
            m = InvalidLiteral (universal_newlines (content (node_of f w)))))
  /\ (forall v, ~ int_literal v (lit "12 34"))
  /\ (forall v, ~ int_literal v (lit "abc"))
  /\ spaces (lit " " ++ [9; 10; 13]).
Proof.
  intros Hr. rewrite reader_gen. unfold read_value. rewrite Hr.
  split; [|split; [|split; [|split; [|split; [|split; [|split]]]]]].
  - intros ws1 sg ds ws2 E H1 H2 Hsg Hne Hds Hlen.
    erewrite read_int_ok; [reflexivity|].
    apply int_of_str_sound.
    + rewrite E. now apply signed_digits_literal.
    + rewrite E, (literal_digit_count ws1 sg ds ws2 H1 H2 Hsg).
      now rewrite (digit_count_digits ds (forallb_ascii_decimal ds Hds)).
  - intros E. rewrite (read_int_ok (node_of f w) 650); [reflexivity|].
    rewrite E. reflexivity.
  - intros v. split.
    + intros [L C]. now rewrite (read_int_ok _ v (int_of_str_sound _ _ L C)).
    + intros [= E]. apply int_of_str_complete. now apply read_int_ok_inv.
  - intros v L C. now rewrite (read_int_limit _ v L C).
  - intros H. destruct (read_int_not_literal (node_of f w) H) as (m & E & D).
    exists m. rewrite E. split; [reflexivity | exact D].
  - apply (invalid_not_literal _ (lit "12 34")). reflexivity.
  - apply (invalid_not_literal _ (lit "abc")). reflexivity.
  - reflexivity.
Qed.

Lemma readers_parse_like_int_witness :
  reader brightness (device (lit " +650" ++ [13; 10]) (lit "1000"))
  = (Ok 650,
     log (OpenRead brightness) (device (lit " +650" ++ [13; 10]) (lit "1000")))
  /\ exists m,
       reader max_brightness (device (lit "650") (lit "abc" ++ [13; 10]))
       = (Raise (ValueError m),
          log (OpenRead max_brightness)
              (device (lit "650") (lit "abc" ++ [13; 10])))
       /\ (forallb is_scalar (lit "abc" ++ [13; 10]) = true ->
           digit_count (lit "abc" ++ [13; 10]) <= max_str_digits ->
           m = InvalidLiteral (lit "abc" ++ [10])).
Proof.
  split.
  - apply (proj1 (readers_parse_like_int brightness
                    (device (lit " +650" ++ [13; 10]) (lit "1000")) eq_refl)
                 (lit " ") (lit "+") (lit "650") [13; 10]).
    + reflexivity.
    + reflexivity.
    + reflexivity.
    + right. left. reflexivity.
    + discriminate.
    + reflexivity.
    + vm_compute. discriminate.
  - apply (proj1 (proj2 (proj2 (proj2 (proj2
             (readers_parse_like_int max_brightness
                (device (lit "650") (lit "abc" ++ [13; 10])) eq_refl)))))).
    apply (invalid_not_literal _ (lit "abc" ++ [13; 10])). reflexivity.
Defined.

(** ** Error reporting *)

Lemma reader_value f w : fst (reader f w) = read_value f w.
Proof. now rewrite reader_gen. Qed.

Lemma read_brightness_value w :
  fst (read_brightness w) = read_value brightness w.
Proof. exact (reader_value brightness w). Qed.

Lemma read_max_brightness_value w :
  fst (read_max_brightness w) = read_value max_brightness w.
Proof. exact (reader_value max_brightness w). Qed.

Lemma main_show_bad_maximum w m :
  fst (read_max_brightness w) = Raise (ValueError m) ->
  main ArgsShow w = (DocoptExit m, log (OpenRead max_brightness) w).
Proof.
  intros H. rewrite read_max_brightness_value in H.
  unfold main. now rewrite show_gen, H.
Qed.

Lemma main_show_bad_current w max m :
  fst (read_max_brightness w) = Ok max ->
  fst (read_brightness w) = Raise (ValueError m) ->
  main ArgsShow w
  = (DocoptExit m,
     log (OpenRead brightness) (log (OpenRead max_brightness) w)).
Proof.
  intros Hm H. rewrite read_max_brightness_value in Hm.
  rewrite read_brightness_value in H.
  unfold main. now rewrite show_gen, Hm, H.
Qed.

Lemma main_set_bad_current value sg g1 g2 w m :
  re_fullmatch value = Some (Some sg, g1, g2) ->
  fst (read_brightness w) = Raise (ValueError m) ->
  main (ArgsSet value) w = (DocoptExit m, log (OpenRead brightness) w).
Proof.
  intros Hm H. rewrite read_brightness_value in H.
  unfold main. rewrite (set_after_match value _ w Hm).
  destruct g2 as [pc|].
  - now rewrite new_brightness_signed_percent, H.
  - now rewrite new_brightness_signed, H.
Qed.

Lemma main_set_bad_maximum value g1 pc w m :
  re_fullmatch value = Some (None, g1, Some pc) ->
  fst (read_max_brightness w) = Raise (ValueError m) ->
  main (ArgsSet value) w = (DocoptExit m, log (OpenRead max_brightness) w).
Proof.
  intros Hm H. rewrite read_max_brightness_value in H.
  unfold main. rewrite (set_after_match value _ w Hm).
  now rewrite new_brightness_percent, H.
Qed.

Lemma main_set_bad_maximum_signed value sg g1 pc w cur m :
  re_fullmatch value = Some (Some sg, g1, Some pc) ->
  fst (read_brightness w) = Ok cur ->
  fst (read_max_brightness w) = Raise (ValueError m) ->
  main (ArgsSet value) w
  = (DocoptExit m,
     log (OpenRead max_brightness) (log (OpenRead brightness) w)).
Proof.
  intros Hm Hc H. rewrite read_brightness_value in Hc.
  rewrite read_max_brightness_value in H.
  unfold main. rewrite (set_after_match value _ w Hm).
  now rewrite new_brightness_signed_percent, Hc, H.
Qed.

(** C10. Content of a device file that is no integer makes the reader
    raise [ValueError].  That [ValueError], in [show] for either file and
    in [set] for either file that is read, ends the program the way the
    [ValueError] of a malformed expression does: [main] catches both in the
    same handler and raises [DocoptExit], the usage error, and the exit
    status is the same and not zero.  The two differ only in the message
    that [DocoptExit] carries: none for the expression, the text of the
    reader's error for the device. *)
Theorem value_errors_share_exit :
  (forall value w,
      ~ expression is_decimal value ->
      main (ArgsSet value) w = (DocoptExit NoMessage, w))
  /\ (forall f w,
         readable (node_of f w) = true ->
         (forall v, ~ int_literal v (content (node_of f w))) ->
         exists m, fst (reader f w) = Raise (ValueError m))
  /\ (forall w m,
         fst (read_max_brightness w) = Raise (ValueError m) ->
         main ArgsShow w = (DocoptExit m, log (OpenRead max_brightness) w))
  /\ (forall w max m,
         fst (read_max_brightness w) = Ok max ->
         fst (read_brightness w) = Raise (ValueError m) ->
         main ArgsShow w
         = (DocoptExit m,
            log (OpenRead brightness) (log (OpenRead max_brightness) w)))
  /\ (forall value sg g1 g2 w m,
         re_fullmatch value = Some (Some sg, g1, g2) ->
         fst (read_brightness w) = Raise (ValueError m) ->
         main (ArgsSet value) w
         = (DocoptExit m, log (OpenRead brightness) w))
  /\ (forall value g1 pc w m,
         re_fullmatch value = Some (None, g1, Some pc) ->
         fst (read_max_brightness w) = Raise (ValueError m) ->
         main (ArgsSet value) w
         = (DocoptExit m, log (OpenRead max_brightness) w))
  /\ (forall value sg g1 pc w cur m,
         re_fullmatch value = Some (Some sg, g1, Some pc) ->
         fst (read_brightness w) = Ok cur ->
         fst (read_max_brightness w) = Raise (ValueError m) ->
         main (ArgsSet value) w
         = (DocoptExit m,
            log (OpenRead max_brightness) (log (OpenRead brightness) w)))
  /\ (forall m m', exit_status (DocoptExit m) = exit_status (DocoptExit m')
                   /\ exit_status (DocoptExit m) <> 0).
Proof.
  split; [|split; [|split; [|split; [|split; [|split; [|split]]]]]].
  - exact main_set_rejected.
  - intros f w Hr H. rewrite reader_value. unfold read_value. rewrite Hr.
    destruct (read_int_not_literal (node_of f w) H) as (m & E & _).
    now exists m.
  - exact main_show_bad_maximum.
  - exact main_show_bad_current.
  - exact main_set_bad_current.
  - exact main_set_bad_maximum.
  - exact main_set_bad_maximum_signed.
  - intros m m'. split; [reflexivity | discriminate].
Qed.

Lemma value_errors_share_exit_witness :
  main (ArgsSet (lit "abc")) (device (lit "650") (lit "1000"))
  = (DocoptExit NoMessage, device (lit "650") (lit "1000"))
  /\ main ArgsShow (device (lit "abc" ++ [13; 10]) (lit "1000"))
     = (DocoptExit (InvalidLiteral (lit "abc" ++ [10])),
        log (OpenRead brightness)
            (log (OpenRead max_brightness)
                 (device (lit "abc" ++ [13; 10]) (lit "1000"))))
  /\ main (ArgsSet (lit "+5")) (device (lit "abc") (lit "1000"))
     = (DocoptExit (InvalidLiteral (lit "abc")),
        log (OpenRead brightness) (device (lit "abc") (lit "1000")))
  /\ main (ArgsSet (lit "+5%")) (device (lit "650") (lit "abc"))
     = (DocoptExit (InvalidLiteral (lit "abc")),
        log (OpenRead max_brightness)
            (log (OpenRead brightness) (device (lit "650") (lit "abc")))).
Proof.
  split; [|split; [|split]].
  - apply (proj1 value_errors_share_exit).
    apply re_fullmatch_none. reflexivity.
  - apply (proj1 (proj2 (proj2 (proj2 value_errors_share_exit)))
                 (device (lit "abc" ++ [13; 10]) (lit "1000")) 1000).
    + reflexivity.
    + reflexivity.
  - apply (proj1 (proj2 (proj2 (proj2 (proj2 value_errors_share_exit))))
                 (lit "+5") (lit "+") (lit "5") None
                 (device (lit "abc") (lit "1000"))).
    + reflexivity.
    + reflexivity.
  - apply (proj1 (proj2 (proj2 (proj2 (proj2 (proj2 (proj2
                    value_errors_share_exit))))))
                 (lit "+5%") (lit "+") (lit "5") (lit "%")
                 (device (lit "650") (lit "abc")) 650).
    + reflexivity.
    + reflexivity.
    + reflexivity.
Defined.

(* ===================================================================== *)
(** * Part IV. Further properties of the program                          *)
(* ===================================================================== *)

(** ** Errors that are not usage errors *)

(** X1. When a device file cannot be opened, [show] ends with the
    [OSError] uncaught, not with the usage error, and prints nothing; the
    maximum is opened first, and when it is the one that fails the
    brightness file is never opened. *)
Theorem show_unreadable w :
  (readable (max_brightness_node w) = false ->
   main ArgsShow w
   = (Uncaught (OSError (path max_brightness)),
      log (OpenRead max_brightness) w))
  /\ (forall max,
         readable (max_brightness_node w) = true ->
         int_of_str (content (max_brightness_node w)) = Ok max ->
         readable (brightness_node w) = false ->
         main ArgsShow w
         = (Uncaught (OSError (path brightness)),
            log (OpenRead brightness) (log (OpenRead max_brightness) w))).
Proof.
  split.
  - intros H. unfold main.
    rewrite show_gen, (read_value_closed max_brightness w H). reflexivity.
  - intros max Hr Hm H. unfold main.
    rewrite show_gen, (read_value_ok max_brightness w max Hr Hm).
    unfold Ok. cbv zeta.
    rewrite (read_value_closed brightness w H). reflexivity.
Qed.

Lemma show_unreadable_witness :
  main ArgsShow (device_with true true false (lit "650") (lit "1000"))
  = (Uncaught (OSError (path max_brightness)),
     log (OpenRead max_brightness)
         (device_with true true false (lit "650") (lit "1000")))
  /\ main ArgsShow (device_with false true true (lit "650") (lit "1000"))
     = (Uncaught (OSError (path brightness)),
        log (OpenRead brightness)
            (log (OpenRead max_brightness)
                 (device_with false true true (lit "650") (lit "1000")))).
Proof.
  split.
  - apply (proj1 (show_unreadable
                    (device_with true true false (lit "650") (lit "1000")))).
    reflexivity.
  - apply (proj2 (show_unreadable
                    (device_with false true true (lit "650") (lit "1000")))
                 1000); reflexivity.
Defined.

(** X2. When the maximum reads as zero, [show] ends with the
    [ZeroDivisionError] of the percentage uncaught, after reading both
    files and without printing. *)
Theorem show_zero_maximum w cur :
  readable (max_brightness_node w) = true ->
  int_of_str (content (max_brightness_node w)) = Ok 0 ->
  readable (brightness_node w) = true ->
  int_of_str (content (brightness_node w)) = Ok cur ->
  main ArgsShow w
  = (Uncaught ZeroDivisionError,
     log (OpenRead brightness) (log (OpenRead max_brightness) w)).
Proof.
  intros Hrm Hm Hr Hc. unfold main.
  rewrite show_gen, (read_value_ok max_brightness w 0 Hrm Hm).
  rewrite (read_value_ok brightness w cur Hr Hc).
  reflexivity.
Qed.

Lemma show_zero_maximum_witness :
  main ArgsShow (device (lit "650") (lit "0"))
  = (Uncaught ZeroDivisionError,
     log (OpenRead brightness)
         (log (OpenRead max_brightness) (device (lit "650") (lit "0")))).
Proof.
  apply (show_zero_maximum (device (lit "650") (lit "0")) 650); reflexivity.
Defined.

(** X3. When the brightness file cannot be opened for writing, [set] ends
    with the [OSError] uncaught after the calculation, and the file keeps
    its content: it is not emptied. *)
Theorem set_unwritable value g w new w1 :
  re_fullmatch value = Some g ->
  new_brightness_of g w = (Ok new, w1) ->
  writable (brightness_node w1) = false ->
  main (ArgsSet value) w
  = (Uncaught (OSError (path brightness)), log (OpenWrite brightness) w1).
Proof.
  intros Hm Hnew Hw. unfold main.
  rewrite (set_after_match value g w Hm), Hnew. unfold Ok.
  rewrite Hw. reflexivity.
Qed.

Lemma set_unwritable_witness :
  main (ArgsSet (lit "+30"))
       (device_with true false true (lit "650") (lit "1000"))
  = (Uncaught (OSError (path brightness)),
     log (OpenWrite brightness)
         (log (OpenRead brightness)
              (device_with true false true (lit "650") (lit "1000")))).
Proof.
  apply (set_unwritable (lit "+30") (Some (lit "+"), lit "30", None)
           (device_with true false true (lit "650") (lit "1000")) 680);
    reflexivity.
Defined.

(** X4. When a file that [set] has to read cannot be opened, [set] ends
    with the [OSError] uncaught and nothing is opened after the failure:
    with a sign the brightness file is read first, so the maximum is not
    opened even for a percentage; with a sign and a percentage the maximum
    is read after the brightness file; the brightness file is never opened
    for writing. *)
Theorem set_unreadable value w :
  (forall sg g1 g2,
      re_fullmatch value = Some (Some sg, g1, g2) ->
      readable (brightness_node w) = false ->
      main (ArgsSet value) w
      = (Uncaught (OSError (path brightness)), log (OpenRead brightness) w))
  /\ (forall g1 pc,
         re_fullmatch value = Some (None, g1, Some pc) ->
         readable (max_brightness_node w) = false ->
         main (ArgsSet value) w
         = (Uncaught (OSError (path max_brightness)),
            log (OpenRead max_brightness) w))
  /\ (forall sg g1 pc cur,
         re_fullmatch value = Some (Some sg, g1, Some pc) ->
         readable (brightness_node w) = true ->
         int_of_str (content (brightness_node w)) = Ok cur ->
         readable (max_brightness_node w) = false ->
         main (ArgsSet value) w
         = (Uncaught (OSError (path max_brightness)),
            log (OpenRead max_brightness) (log (OpenRead brightness) w))).
Proof.
  split; [|split].
  - intros sg g1 g2 Hm H. unfold main.
    rewrite (set_after_match value _ w Hm).
    destruct g2 as [pc|].
    + rewrite new_brightness_signed_percent.
      rewrite (read_value_closed brightness w H). reflexivity.
    + rewrite new_brightness_signed.
      rewrite (read_value_closed brightness w H). reflexivity.
  - intros g1 pc Hm H. unfold main.
    rewrite (set_after_match value _ w Hm).
    rewrite new_brightness_percent.
    rewrite (read_value_closed max_brightness w H). reflexivity.
  - intros sg g1 pc cur Hm Hr Hc H. unfold main.
    rewrite (set_after_match value _ w Hm).
    rewrite new_brightness_signed_percent.
    rewrite (read_value_ok brightness w cur Hr Hc). unfold Ok.
    rewrite (read_value_closed max_brightness w H). reflexivity.
Qed.

Lemma set_unreadable_witness :
  main (ArgsSet (lit "+10%"))
       (device_with false true true (lit "650") (lit "1000"))
  = (Uncaught (OSError (path brightness)),
     log (OpenRead brightness)
         (device_with false true true (lit "650") (lit "1000")))
  /\ main (ArgsSet (lit "10%"))
          (device_with true true false (lit "650") (lit "1000"))
     = (Uncaught (OSError (path max_brightness)),
        log (OpenRead max_brightness)
            (device_with true true false (lit "650") (lit "1000")))
  /\ main (ArgsSet (lit "+10%"))
          (device_with true true false (lit "650") (lit "1000"))
     = (Uncaught (OSError (path max_brightness)),
        log (OpenRead max_brightness)
            (log (OpenRead brightness)
                 (device_with true true false (lit "650") (lit "1000")))).
Proof.
  split; [|split].
  - apply (proj1 (set_unreadable (lit "+10%")
                    (device_with false true true (lit "650") (lit "1000")))
                 (lit "+") (lit "10") (Some (lit "%"))); reflexivity.
  - apply (proj1 (proj2 (set_unreadable (lit "10%")
                    (device_with true true false (lit "650") (lit "1000"))))
                 (lit "10") (lit "%")); reflexivity.
  - apply (proj2 (proj2 (set_unreadable (lit "+10%")
                    (device_with true true false (lit "650") (lit "1000"))))
                 (lit "+") (lit "10") (lit "%") 650); reflexivity.
Defined.

(** X5. A percentage of at most 4300 digits whose quotient
    [p * max / 100] reaches [2^1024] in magnitude makes the division
    overflow: [set] ends with the [OverflowError] uncaught after reading the
    maximum, and the brightness file is not opened. *)
Theorem set_percent_overflow value g1 pc w max :
  re_fullmatch value = Some (None, g1, Some pc) ->
  Z.of_nat (List.length g1) <= max_str_digits ->
  readable (max_brightness_node w) = true ->
  int_of_str (content (max_brightness_node w)) = Ok max ->
  100 * 2 ^ 1024 <= Z.abs (decimal_value g1 * max) ->
  main (ArgsSet value) w
  = (Uncaught OverflowError, log (OpenRead max_brightness) w).
Proof.
  intros Hm Hlen Hr Hmax Hbig. unfold main.
  rewrite (set_after_match value _ w Hm).
  rewrite new_brightness_percent.
  rewrite (read_value_ok max_brightness w max Hr Hmax). unfold Ok.
  rewrite (matched_digits_are_read _ _ _ _ Hm Hlen). unfold Ok.
  rewrite true_divide_overflow; [reflexivity | lia | exact Hbig].
Qed.

Lemma set_percent_overflow_witness :
  main (ArgsSet (lit "1%")) (device (lit "650") (str_of_int (2 ^ 1034)))
  = (Uncaught OverflowError,
     log (OpenRead max_brightness)
         (device (lit "650") (str_of_int (2 ^ 1034)))).
Proof.
  apply (set_percent_overflow (lit "1%") (lit "1") (lit "%")
           (device (lit "650") (str_of_int (2 ^ 1034))) (2 ^ 1034)).
  - reflexivity.
  - vm_compute. discriminate.
  - reflexivity.
  - vm_compute. reflexivity.
  - vm_compute. discriminate.
Defined.

(** ** What a run touches *)

(** X6. A new value with more digits than [str] writes is found out after
    the brightness file was opened for writing: [set] ends with the usage
    error of the limit, and the file, emptied by [open], holds nothing, the
    old value being lost. *)
Theorem set_refused_after_open value g w new w1 :
  re_fullmatch value = Some g ->
  new_brightness_of g w = (Ok new, w1) ->
  writable (brightness_node w1) = true ->
  10 ^ max_str_digits <= Z.abs new ->
  main (ArgsSet value) w
  = (DocoptExit DigitLimitToStr,
     set_content brightness [] (log (OpenWrite brightness) w1))
  /\ content (brightness_node (snd (main (ArgsSet value) w))) = []
  /\ opened (snd (main (ArgsSet value) w))
     = opened w1 ++ [OpenWrite brightness].
Proof.
  intros Hm Hnew Hw Hb.
  assert (main (ArgsSet value) w
          = (DocoptExit DigitLimitToStr,
             set_content brightness [] (log (OpenWrite brightness) w1))) as E.
  { unfold main. rewrite (set_after_match value g w Hm), Hnew. unfold Ok.
    now rewrite Hw, (str_int_limit new Hb). }
  rewrite E. repeat split.
Qed.

Lemma set_refused_after_open_witness :
  main (ArgsSet (lit "+1")) (device (repeat 57 4300) (lit "1000"))
  = (DocoptExit DigitLimitToStr,
     set_content brightness []
       (log (OpenWrite brightness)
            (log (OpenRead brightness)
                 (device (repeat 57 4300) (lit "1000")))))
  /\ content
       (brightness_node
          (snd (main (ArgsSet (lit "+1"))
                     (device (repeat 57 4300) (lit "1000"))))) = []
  /\ opened (snd (main (ArgsSet (lit "+1"))
                       (device (repeat 57 4300) (lit "1000"))))
     = opened (log (OpenRead brightness)
                   (device (repeat 57 4300) (lit "1000")))
         ++ [OpenWrite brightness].
Proof.
  apply (set_refused_after_open (lit "+1") (Some (lit "+"), lit "1", None)
           (device (repeat 57 4300) (lit "1000")) (10 ^ max_str_digits)
           (log (OpenRead brightness)
                (device (repeat 57 4300) (lit "1000")))).
  - reflexivity.
  - exact (proj1 (set_refused_by_str 4300 (lit "1000") eq_refl)).
  - reflexivity.
  - rewrite Z.abs_eq; [apply Z.le_refl | apply Z.pow_nonneg; lia].
Defined.

(** X7. [show] never changes a device file and never opens one for
    writing: it opens the maximum for reading and then, unless that failed,
    the brightness file, and nothing else. *)
Theorem show_only_reads w :
  brightness_node (snd (main ArgsShow w)) = brightness_node w
  /\ max_brightness_node (snd (main ArgsShow w)) = max_brightness_node w
  /\ (opened (snd (main ArgsShow w)) = opened w ++ [OpenRead max_brightness]
      \/ opened (snd (main ArgsShow w))
         = opened w ++ [OpenRead max_brightness; OpenRead brightness]).
Proof.
  unfold main. rewrite show_gen.
  assert (forall l : list event,
             (l ++ [OpenRead max_brightness]) ++ [OpenRead brightness]
             = l ++ [OpenRead max_brightness; OpenRead brightness]) as A
      by (intros; now rewrite <- app_assoc).
  destruct (read_value max_brightness w) as [max|e].
  - cbv zeta. destruct (read_value brightness w) as [cur|e].
    + destruct (true_divide (cur * 100) max) as [q|e].
      * destruct (str_int cur) as [cur_text|e].
        -- destruct (str_int max) as [max_text|e].
           ++ unfold print. cbn. repeat split. right. apply A.
           ++ destruct e; cbn; repeat split; right; apply A.
        -- destruct e; cbn; repeat split; right; apply A.
      * destruct e; cbn; repeat split; right; apply A.
    + destruct e; cbn; repeat split; right; apply A.
  - destruct e; cbn; repeat split; now left.
Qed.

(** X8. [set] never prints and never changes or opens for writing the
    maximum.  It opens files for reading first and opens the brightness
    file for writing last, if at all; as long as it has not done so, the
    brightness file is as it was. *)
Theorem set_footprint value w :
  stdout (snd (main (ArgsSet value) w)) = stdout w
  /\ max_brightness_node (snd (main (ArgsSet value) w)) = max_brightness_node w
  /\ exists reads,
       forallb is_read reads = true
       /\ ((opened (snd (main (ArgsSet value) w)) = opened w ++ reads
            /\ brightness_node (snd (main (ArgsSet value) w))
               = brightness_node w)
           \/ opened (snd (main (ArgsSet value) w))
              = opened w ++ reads ++ [OpenWrite brightness]).
Proof.
  unfold main.
  destruct (re_fullmatch value) as [g|] eqn:Hm.
  - rewrite (set_after_match value g w Hm).
    destruct (new_brightness_effect g w) as (Eb & Em & Es & reads & Eo & Hr).
    destruct (new_brightness_of g w) as [[new|e] w1]; cbn [snd] in *.
    + assert (forall o : outcome,
                 forall text,
                 let w2 := snd (o, set_content brightness text
                                     (log (OpenWrite brightness) w1)) in
                 stdout w2 = stdout w
                 /\ max_brightness_node w2 = max_brightness_node w
                 /\ exists reads0,
                      forallb is_read reads0 = true
                      /\ ((opened w2 = opened w ++ reads0
                           /\ brightness_node w2 = brightness_node w)
                          \/ opened w2
                             = opened w ++ reads0 ++ [OpenWrite brightness]))
        as W.
      { intros o text.
        cbn [snd log set_content brightness_node max_brightness_node
             stdout opened].
        split; [exact Es | split; [exact Em|]]. exists reads.
        split; [exact Hr|]. right. now rewrite Eo, <- app_assoc. }
      destruct (writable (brightness_node w1)).
      * destruct (str_int new) as [text|e].
        -- destruct (accepting (brightness_node w1)).
           ++ exact (W Returned (text ++ [10])).
           ++ exact (W (Uncaught OSErrorOnWrite) []).
        -- destruct e as [m| | | | |];
             [exact (W (DocoptExit m) []) | exact (W (Uncaught _) []) ..].
      * unfold Raise.
        cbn [snd log brightness_node max_brightness_node stdout opened].
        split; [exact Es | split; [exact Em|]]. exists reads.
        split; [exact Hr|]. right. now rewrite Eo, <- app_assoc.
    + destruct e; cbn [snd]; (split; [exact Es | split; [exact Em|]]);
        exists reads; (split; [exact Hr|]); left; auto.
  - unfold set_current_brightness. rewrite Hm. cbn.
    split; [reflexivity | split; [reflexivity|]].
    exists []. split; [reflexivity|]. left. split; [|reflexivity].
    now rewrite app_nil_r.
Qed.

(** ** Errors found after the device was touched *)



(** X10. When the brightness file could be opened for writing and then
    refuses what is written, [set] ends with an [OSError] uncaught, not with
    the usage error, after the file was opened; the maximum and the
    standard output are untouched. *)
Theorem set_write_refused value g w new w1 :
  re_fullmatch value = Some g ->
  new_brightness_of g w = (Ok new, w1) ->
  writable (brightness_node w1) = true ->
  accepting (brightness_node w1) = false ->
  Z.abs new < 10 ^ max_str_digits ->
  fst (main (ArgsSet value) w) = Uncaught OSErrorOnWrite
  /\ opened (snd (main (ArgsSet value) w))
     = opened w1 ++ [OpenWrite brightness]
  /\ max_brightness_node (snd (main (ArgsSet value) w))
     = max_brightness_node w1
  /\ stdout (snd (main (ArgsSet value) w)) = stdout w1
  /\ exit_status (fst (main (ArgsSet value) w)) <> 0.
Proof.
  intros Hm Hnew Hw Ha Hb.
  assert (main (ArgsSet value) w
          = (Uncaught OSErrorOnWrite,
             set_content brightness [] (log (OpenWrite brightness) w1))) as E.
  { unfold main. rewrite (set_after_match value g w Hm), Hnew. unfold Ok.
    now rewrite Hw, (str_int_ok new Hb), Ha. }
  rewrite E. repeat split. discriminate.
Qed.

Lemma set_write_refused_witness :
  fst (main (ArgsSet (lit "70%")) (refusing_device (lit "650") (lit "1000")))
  = Uncaught OSErrorOnWrite
  /\ opened (snd (main (ArgsSet (lit "70%"))
                       (refusing_device (lit "650") (lit "1000"))))
     = opened (log (OpenRead max_brightness)
                   (refusing_device (lit "650") (lit "1000")))
         ++ [OpenWrite brightness]
  /\ max_brightness_node
       (snd (main (ArgsSet (lit "70%"))
                  (refusing_device (lit "650") (lit "1000"))))
     = max_brightness_node
         (log (OpenRead max_brightness)
              (refusing_device (lit "650") (lit "1000")))
  /\ stdout (snd (main (ArgsSet (lit "70%"))
                       (refusing_device (lit "650") (lit "1000"))))
     = stdout (log (OpenRead max_brightness)
                   (refusing_device (lit "650") (lit "1000")))
  /\ exit_status
       (fst (main (ArgsSet (lit "70%"))
                  (refusing_device (lit "650") (lit "1000")))) <> 0.
Proof.
  apply (set_write_refused (lit "70%") (None, lit "70", Some (lit "%"))
           (refusing_device (lit "650") (lit "1000")) 700
           (log (OpenRead max_brightness)
                (refusing_device (lit "650") (lit "1000")))).
  - reflexivity.
  - reflexivity.
  - reflexivity.
  - reflexivity.
  - apply below_limit. reflexivity.
Defined.

(** X11. A device file whose bytes cannot be decoded is a usage error as
    well: [read] raises [UnicodeDecodeError], which is a [ValueError], so
    [main] ends with [DocoptExit], in [show] as in [set], and later files
    are not opened. *)
Theorem undecodable_is_usage_error w :
  (readable (max_brightness_node w) = true ->
   forallb is_scalar (content (max_brightness_node w)) = false ->
   main ArgsShow w
   = (DocoptExit CannotDecode, log (OpenRead max_brightness) w))
  /\ (forall value sg g1 g2,
         re_fullmatch value = Some (Some sg, g1, g2) ->
         readable (brightness_node w) = true ->
         forallb is_scalar (content (brightness_node w)) = false ->
         main (ArgsSet value) w
         = (DocoptExit CannotDecode, log (OpenRead brightness) w))
  /\ (forall value g1 pc,
         re_fullmatch value = Some (None, g1, Some pc) ->
         readable (max_brightness_node w) = true ->
         forallb is_scalar (content (max_brightness_node w)) = false ->
         main (ArgsSet value) w
         = (DocoptExit CannotDecode, log (OpenRead max_brightness) w)).
Proof.
  assert (forall f,
             readable (node_of f w) = true ->
             forallb is_scalar (content (node_of f w)) = false ->
             read_value f w = Raise (ValueError CannotDecode)) as R.
  { intros f Hr Hs. unfold read_value. now rewrite Hr, read_int_gen, Hs. }
  split; [|split].
  - intros Hr Hs. unfold main.
    now rewrite show_gen, (R max_brightness Hr Hs).
  - intros value sg g1 g2 Hm Hr Hs. unfold main.
    rewrite (set_after_match value _ w Hm). destruct g2 as [pc|].
    + now rewrite new_brightness_signed_percent, (R brightness Hr Hs).
    + now rewrite new_brightness_signed, (R brightness Hr Hs).
  - intros value g1 pc Hm Hr Hs. unfold main.
    rewrite (set_after_match value _ w Hm).
    now rewrite new_brightness_percent, (R max_brightness Hr Hs).
Qed.

Lemma undecodable_is_usage_error_witness :
  main ArgsShow (device (lit "650") [0xDCFF; 10])
  = (DocoptExit CannotDecode,
     log (OpenRead max_brightness) (device (lit "650") [0xDCFF; 10]))
  /\ main (ArgsSet (lit "+5")) (device [0xDCFF; 10] (lit "1000"))
     = (DocoptExit CannotDecode,
        log (OpenRead brightness) (device [0xDCFF; 10] (lit "1000"))).
Proof.
  split.
  - apply (proj1 (undecodable_is_usage_error
                    (device (lit "650") [0xDCFF; 10]))); reflexivity.
  - apply (proj1 (proj2 (undecodable_is_usage_error
                           (device [0xDCFF; 10] (lit "1000"))))
                 (lit "+5") (lit "+") (lit "5") None); reflexivity.
Defined.

(** ** One run after another *)

Section Sequences.

(** After a successful [set], the brightness file holds the new value and
    keeps its permissions. *)
Lemma set_result_nodes value g w new :
  re_fullmatch value = Some g ->
  fst (new_brightness_of g w) = Ok new ->
  writable (brightness_node w) = true ->
  accepting (brightness_node w) = true ->
  Z.abs new < 10 ^ max_str_digits ->
  fst (set_current_brightness value w) = Ok tt
  /\ brightness_node (snd (set_current_brightness value w))
     = {| readable := readable (brightness_node w);
          writable := writable (brightness_node w);
          accepting := accepting (brightness_node w);
          content := str_of_int new ++ [10] |}
  /\ max_brightness_node (snd (set_current_brightness value w))
     = max_brightness_node w.
Proof.
  intros Hm Hnew Hw Ha Hb.
  destruct (new_brightness_effect g w) as (Eb & Em & _).
  destruct (new_brightness_of g w) as [[new'|e] w1] eqn:En;
    cbn [fst snd] in *; [|discriminate].
  injection Hnew as ->.
  rewrite (set_result value g w new w1 Hm En); try assumption.
  - cbn [fst snd set_content log brightness_node max_brightness_node].
    rewrite Eb. split; [reflexivity|]. split; [reflexivity | exact Em].
  - now rewrite Eb.
  - now rewrite Eb.
Qed.

(** Reading a file that holds the line of an integer. *)
Lemma read_printed w n :
  readable (brightness_node w) = true ->
  content (brightness_node w) = str_of_int n ++ [10] ->
  Z.abs n < 10 ^ max_str_digits ->
  read_value brightness w = Ok n.
Proof.
  intros Hr Hc Hb. apply read_value_ok; [exact Hr|].
  cbn [node_of]. rewrite Hc. now apply int_of_printed.
Qed.

(** [round] of a quotient by 100 is no larger than the quotient. *)
Lemma round_percent_bound x q :
  Z.abs x < 100 * 2 ^ 52 ->
  true_divide x 100 = Ok q -> Z.abs (round q) <= 2 ^ 52.
Proof.
  intros Hx Hq. destruct (Z.eq_dec x 0) as [-> | Hz].
  - rewrite true_divide_zero in Hq by lia. injection Hq as <-.
    vm_compute. discriminate.
  - destruct (true_divide_below x 100 52) as (e & He & E); try lia.
    rewrite E in Hq. injection Hq as <-.
    unfold round, round_scaled. cbn [negative significand exponent].
    replace (0 <=? e) with false by (symmetry; apply Z.leb_gt; lia).
    assert (0 < 2 ^ (- e)) as HP by (apply Z.pow_pos_nonneg; lia).
    change (Z.abs 100) with 100.
    set (P := 2 ^ (- e)) in *.
    assert (0 <= div_half_even (Z.abs x * P) 100 <= 2 ^ 52 * P) as Bm.
    { apply div_half_even_between; [lia|]. split; nia. }
    set (m := div_half_even (Z.abs x * P) 100) in *.
    assert (0 <= div_half_even (1 * m) P <= 2 ^ 52) as Br.
    { apply div_half_even_between; [lia|]. split; nia. }
    destruct (xorb (x <? 0) (100 <? 0)); lia.
Qed.

End Sequences.

(** X12. What [set] writes, the reader reads back: after a successful
    [set] that computed [new] (of at most 4300 digits, on a file that takes
    what is written to it and keeps it), reading the brightness file yields
    [new], also when [new] is negative or above the maximum. *)
Theorem set_then_read value g w new :
  re_fullmatch value = Some g ->
  fst (new_brightness_of g w) = Ok new ->
  writable (brightness_node w) = true ->
  accepting (brightness_node w) = true ->
  readable (brightness_node w) = true ->
  Z.abs new < 10 ^ max_str_digits ->
  fst (set_current_brightness value w) = Ok tt
  /\ fst (read_brightness (snd (set_current_brightness value w))) = Ok new.
Proof.
  intros Hm Hnew Hw Ha Hr Hb.
  destruct (set_result_nodes value g w new Hm Hnew Hw Ha Hb) as (E1 & E2 & _).
  split; [exact E1|].
  rewrite read_brightness_gen. cbn [fst].
  apply read_printed; [| |exact Hb]; rewrite E2; [exact Hr | reflexivity].
Qed.

Lemma set_then_read_witness :
  fst (set_current_brightness (lit "-30") (device (lit "10") (lit "1000")))
  = Ok tt
  /\ fst (read_brightness
            (snd (set_current_brightness (lit "-30")
                    (device (lit "10") (lit "1000")))))
     = Ok (-20).
Proof.
  apply (set_then_read (lit "-30") (Some (lit "-"), lit "30", None)
           (device (lit "10") (lit "1000")) (-20)).
  - reflexivity.
  - reflexivity.
  - reflexivity.
  - reflexivity.
  - reflexivity.
  - apply below_limit. reflexivity.
Defined.

(** X13. Relative changes undo each other exactly: on a brightness file
    that can be read and written, takes what is written and holds the
    integer [cur], [set +n] followed by [set -n] with the same digits, at
    most 4300 of them and [cur + n] having no more either, succeeds twice
    and leaves [cur] in the file, written in decimal with a newline;
    nothing is clamped or rounded on the way. *)
Theorem set_plus_then_minus ds w cur :
  ds <> [] -> forallb is_decimal ds = true ->
  Z.of_nat (List.length ds) <= max_str_digits ->
  readable (brightness_node w) = true ->
  writable (brightness_node w) = true ->
  accepting (brightness_node w) = true ->
  int_of_str (content (brightness_node w)) = Ok cur ->
  Z.abs (cur + decimal_value ds) < 10 ^ max_str_digits ->
  fst (set_current_brightness (lit "+" ++ ds) w) = Ok tt
  /\ fst (set_current_brightness (lit "-" ++ ds)
            (snd (set_current_brightness (lit "+" ++ ds) w))) = Ok tt
  /\ content
       (brightness_node
          (snd (set_current_brightness (lit "-" ++ ds)
                  (snd (set_current_brightness (lit "+" ++ ds) w)))))
     = str_of_int cur ++ [10].
Proof.
  intros Hne Hds Hlen Hr Hw Ha Hc Hb.
  assert (forall sg, sign_part sg -> sg <> [] ->
            re_fullmatch (sg ++ ds) = Some (Some sg, ds, None)) as Hm.
  { intros sg Hsg Hn.
    pose proof (re_fullmatch_expression sg ds [] Hsg Hne Hds
                  ltac:(now left)) as E.
    rewrite app_nil_r in E. rewrite E. destruct sg; [congruence|reflexivity]. }
  assert (sign_part (lit "+")) as Sp by (right; now left).
  assert (sign_part (lit "-")) as Sm by (right; now right).
  pose proof (Hm (lit "+") Sp ltac:(discriminate)) as Mp.
  pose proof (Hm (lit "-") Sm ltac:(discriminate)) as Mm.
  pose proof (int_of_digits ds Hne Hds Hlen) as Hn.
  pose proof (int_of_str_bound _ _ Hc) as Hcb.
  set (n := decimal_value ds) in *.
  assert (fst (new_brightness_of (Some (lit "+"), ds, None) w) = Ok (cur + n))
    as N1.
  { rewrite new_brightness_signed, (read_value_ok brightness w cur Hr Hc).
    unfold Ok. rewrite Hn. reflexivity. }
  destruct (set_result_nodes _ _ w (cur + n) Mp N1 Hw Ha Hb) as (R1 & B1 & _).
  set (w1 := snd (set_current_brightness (lit "+" ++ ds) w)) in *.
  assert (read_value brightness w1 = Ok (cur + n)) as V1.
  { apply read_printed; [| |exact Hb]; rewrite B1; [exact Hr | reflexivity]. }
  assert (fst (new_brightness_of (Some (lit "-"), ds, None) w1) = Ok cur)
    as N2.
  { rewrite new_brightness_signed, V1. unfold Ok. rewrite Hn. cbn [fst].
    unfold Ok. f_equal. change (sign_of (lit "-")) with Minus.
    unfold apply_sign. lia. }
  assert (writable (brightness_node w1) = true) as Hw1
      by (rewrite B1; exact Hw).
  assert (accepting (brightness_node w1) = true) as Ha1
      by (rewrite B1; exact Ha).
  destruct (set_result_nodes _ _ w1 cur Mm N2 Hw1 Ha1 Hcb) as (R2 & B2 & _).
  split; [exact R1 | split; [exact R2|]].
  rewrite B2. reflexivity.
Qed.

Lemma set_plus_then_minus_witness :
  fst (set_current_brightness (lit "+" ++ lit "30")
         (device (lit "650") (lit "1000"))) = Ok tt
  /\ fst (set_current_brightness (lit "-" ++ lit "30")
            (snd (set_current_brightness (lit "+" ++ lit "30")
                    (device (lit "650") (lit "1000"))))) = Ok tt
  /\ content
       (brightness_node
          (snd (set_current_brightness (lit "-" ++ lit "30")
                  (snd (set_current_brightness (lit "+" ++ lit "30")
                          (device (lit "650") (lit "1000")))))))
     = str_of_int 650 ++ [10].
Proof.
  apply (set_plus_then_minus (lit "30") (device (lit "650") (lit "1000")) 650).
  - discriminate.
  - reflexivity.
  - vm_compute. discriminate.
  - reflexivity.
  - reflexivity.
  - reflexivity.
  - reflexivity.
  - apply below_limit. reflexivity.
Defined.

(** ** Percentages within the maximum *)

(** X14. A percentage between 0 and 100 of a maximum below [2^47] never
    leaves the range of the device: the new brightness lies between 0 and
    the maximum, [0%] gives 0 and [100%] gives the maximum itself. *)
Theorem percent_within_maximum g p w max :
  directive_of g = Ok (AbsolutePercent p) ->
  readable (max_brightness_node w) = true ->
  int_of_str (content (max_brightness_node w)) = Ok max ->
  0 <= p <= 100 -> 0 <= max < 2 ^ 47 ->
  exists new,
    new_brightness_of g w = (Ok new, log (OpenRead max_brightness) w)
    /\ 0 <= new <= max
    /\ (p = 0 -> new = 0)
    /\ (p = 100 -> new = max).
Proof.
  intros H Hr Hm Hp Hmax.
  rewrite (new_brightness_absolute_percent g p w max H Hr Hm).
  destruct (round_percent_exact (p * max) ltac:(nia)) as (q & Hq & Hround).
  rewrite Hq. unfold Ok. exists (round q). rewrite Hround.
  split; [reflexivity|]. split; [|split].
  - apply div_half_even_between; [lia | nia].
  - intros ->. reflexivity.
  - intros ->. apply div_half_even_exact. lia.
Qed.

Lemma percent_within_maximum_witness :
  exists new,
    new_brightness_of (None, lit "100", Some (lit "%"))
                      (device (lit "650") (lit "937"))
    = (Ok new, log (OpenRead max_brightness) (device (lit "650") (lit "937")))
    /\ 0 <= new <= 937
    /\ (100 = 0 -> new = 0)
    /\ (100 = 100 -> new = 937).
Proof.
  apply (percent_within_maximum (None, lit "100", Some (lit "%")) 100
           (device (lit "650") (lit "937")) 937).
  - reflexivity.
  - reflexivity.
  - reflexivity.
  - lia.
  - lia.
Defined.

(** X15. A larger percentage never gives a smaller brightness: for
    non-negative percentages [p <= p'] of the same non-negative maximum,
    with [p' * max < 100 * 2^47], the new brightness for [p] is at most the
    one for [p']. *)
Theorem percent_monotone g g' p p' w max :
  directive_of g = Ok (AbsolutePercent p) ->
  directive_of g' = Ok (AbsolutePercent p') ->
  readable (max_brightness_node w) = true ->
  int_of_str (content (max_brightness_node w)) = Ok max ->
  0 <= p <= p' -> 0 <= max -> p' * max < 100 * 2 ^ 47 ->
  exists new new',
    new_brightness_of g w = (Ok new, log (OpenRead max_brightness) w)
    /\ new_brightness_of g' w = (Ok new', log (OpenRead max_brightness) w)
    /\ new <= new'.
Proof.
  intros H H' Hr Hm Hp Hmax Hb.
  rewrite (new_brightness_absolute_percent g p w max H Hr Hm).
  rewrite (new_brightness_absolute_percent g' p' w max H' Hr Hm).
  destruct (round_percent_exact (p * max) ltac:(nia)) as (q & Hq & Hround).
  destruct (round_percent_exact (p' * max) ltac:(nia)) as (q' & Hq' & Hround').
  rewrite Hq, Hq'. unfold Ok. exists (round q), (round q').
  split; [reflexivity | split; [reflexivity|]].
  rewrite Hround, Hround'. apply div_half_even_mono; [lia | nia].
Qed.

Lemma percent_monotone_witness :
  exists new new',
    new_brightness_of (None, lit "33", Some (lit "%"))
                      (device (lit "650") (lit "937"))
    = (Ok new, log (OpenRead max_brightness) (device (lit "650") (lit "937")))
    /\ new_brightness_of (None, lit "34", Some (lit "%"))
                         (device (lit "650") (lit "937"))
       = (Ok new',
          log (OpenRead max_brightness) (device (lit "650") (lit "937")))
    /\ new <= new'.
Proof.
  apply (percent_monotone (None, lit "33", Some (lit "%"))
           (None, lit "34", Some (lit "%")) 33 34
           (device (lit "650") (lit "937")) 937).
  - reflexivity.
  - reflexivity.
  - reflexivity.
  - reflexivity.
  - lia.
  - lia.
  - lia.
Defined.

(** ** The expression and its sign *)

(** X16. The number of a directive is never negative, because the sign is
    captured apart from the digits: a value that starts with [-] is always a
    decrease ([Relative] or [RelativePercent] with the minus sign), never an
    absolute negative brightness, and one that starts with [+] is always an
    increase. *)
Theorem parse_sign_is_relative value d :
  parse value = Ok d ->
  0 <= payload d
  /\ (forall rest, value = 45 :: rest ->
        d = Relative Minus (payload d) \/ d = RelativePercent Minus (payload d))
  /\ (forall rest, value = 43 :: rest ->
        d = Relative Plus (payload d) \/ d = RelativePercent Plus (payload d)).
Proof.
  unfold parse.
  destruct (re_fullmatch value) as [[[g0 g1] g2]|] eqn:Hm; [|discriminate].
  destruct (re_fullmatch_sound _ _ _ _ Hm)
    as (sg & pc & -> & Hsg & Hne & Hds & Hpc & -> & ->).
  intros Hd.
  assert (Z.of_nat (List.length g1) <= max_str_digits) as Hlen.
  { destruct (directive_of_inv _ _ Hd) as (n & Hn & _). cbn [fst snd] in Hn.
    now destruct (int_of_digits_value g1 n Hne Hds Hn). }
  assert (Ok d = Ok (classified sg g1 pc)) as Q
      by (rewrite <- Hd; exact (directive_of_expression sg g1 pc
                                  Hsg Hne Hds Hpc Hlen)).
  injection Q as ->. clear Hd.
  assert (payload (classified sg g1 pc) = decimal_value g1) as P
      by (destruct sg, pc; reflexivity).
  rewrite P. split; [apply decimal_value_nonneg|].
  assert (forall c rest, sg ++ g1 ++ pc = c :: rest -> (c = 43 \/ c = 45) ->
                         sg = [c]) as Hhead.
  { intros c rest E Hc. destruct Hsg as [-> | [-> | ->]].
    - destruct g1 as [|c0 g1]; [congruence|].
      simpl in E, Hds. injection E as -> _.
      apply andb_true_iff in Hds as [Hc0 _].
      apply is_decimal_true in Hc0 as [d0 Hd0].
      destruct (decimal_not_mark c d0 Hd0) as (N43 & N45 & _). lia.
    - simpl in E. now injection E as <- _.
    - simpl in E. now injection E as <- _. }
  split.
  - intros rest E. rewrite (Hhead 45 rest E ltac:(now right)).
    destruct Hpc as [-> | ->]; [now left | now right].
  - intros rest E. rewrite (Hhead 43 rest E ltac:(now left)).
    destruct Hpc as [-> | ->]; [now left | now right].
Qed.

Lemma parse_sign_is_relative_witness :
  0 <= payload (Relative Minus 5)
  /\ (forall rest, lit "-5" = 45 :: rest ->
        Relative Minus 5 = Relative Minus (payload (Relative Minus 5))
        \/ Relative Minus 5
           = RelativePercent Minus (payload (Relative Minus 5)))
  /\ (forall rest, lit "-5" = 43 :: rest ->
        Relative Minus 5 = Relative Plus (payload (Relative Minus 5))
        \/ Relative Minus 5
           = RelativePercent Plus (payload (Relative Minus 5))).
Proof.
  apply (parse_sign_is_relative (lit "-5") (Relative Minus 5)).
  reflexivity.
Defined.

(** ** The percentage that [show] prints *)

Section Percentage.

Lemma format_2f_positive x :
  negative x = false -> format_2f x = two_decimals (round_scaled 100 x).
Proof. intros H. unfold format_2f, two_decimals. now rewrite H. Qed.

(** The hundredths that are printed for a brightness within the maximum:
    in range, within half a hundredth of the true percentage up to the
    error of the double, and exact when the true percentage has two
    decimals. *)
Lemma hundredths_spec cur max :
  0 < max -> 0 <= cur <= max ->
  exists percentage,
    true_divide (cur * 100) max = Ok percentage
    /\ negative percentage = false
    /\ 0 <= round_scaled 100 percentage <= 10000
    /\ 2 ^ 39 * (2 * Z.abs (round_scaled 100 percentage * max - 10000 * cur)
                 - max) <= max
    /\ (forall h, 10000 * cur = h * max -> round_scaled 100 percentage = h).
Proof.
  intros Hmax Hcur.
  destruct (Z.eq_dec cur 0) as [-> | Hz].
  - exists {| negative := max <? 0; significand := 0; exponent := 0 |}.
    split; [apply true_divide_zero; lia|].
    cbn [negative]. split; [apply Z.ltb_ge; lia|].
    change (round_scaled 100
              {| negative := max <? 0; significand := 0; exponent := 0 |})
      with 0.
    split; [lia|]. split; [lia|]. intros h Hh. nia.
  - destruct (true_divide_below (cur * 100) max 7) as (e & He & E);
      try lia.
    eexists. split; [exact E|]. cbn [negative].
    split.
    { replace (cur * 100 <? 0) with false by (symmetry; apply Z.ltb_ge; lia).
      replace (max <? 0) with false by (symmetry; apply Z.ltb_ge; lia).
      reflexivity. }
    unfold round_scaled. cbn [significand exponent].
    replace (0 <=? e) with false by (symmetry; apply Z.leb_gt; lia).
    rewrite (Z.abs_eq (cur * 100)) by lia. rewrite (Z.abs_eq max) by lia.
    assert (2 ^ 46 <= 2 ^ (- e)) as HP by (apply Z.pow_le_mono_r; lia).
    set (P := 2 ^ (- e)) in *.
    assert (0 < 2 ^ 46) as P46 by reflexivity.
    destruct (div_half_even_spec (cur * 100 * P) max Hmax) as [Bm _].
    set (m := div_half_even (cur * 100 * P) max) in *.
    assert (0 <= m <= 100 * P) as Rm
        by (apply div_half_even_between; [lia | nia]).
    destruct (div_half_even_spec (100 * m) P ltac:(lia)) as [Bh _].
    assert (0 <= div_half_even (100 * m) P <= 10000) as Rh
        by (apply div_half_even_between; [lia | nia]).
    set (h := div_half_even (100 * m) P) in *.
    assert (P * (h * max - 10000 * cur)
            = max * (P * h - 100 * m) + 100 * (max * m - cur * 100 * P))
      as Key by ring.
    set (D := h * max - 10000 * cur) in *.
    assert (- (max * P) <= 2 * (max * (P * h - 100 * m)) <= max * P) as MB
        by nia.
    assert (- (max * P + 100 * max) <= 2 * (P * D) <= max * P + 100 * max)
      as PD by lia.
    split; [exact Rh|]. split.
    + assert (P * (2 * D - max) <= 100 * max) as U1 by lia.
      assert (P * (- 2 * D - max) <= 100 * max) as U2 by lia.
      assert (forall X, P * X <= 100 * max -> 2 ^ 39 * X <= max) as T.
      { intros X HX. destruct (Z_le_gt_dec X 0) as [L | G].
        - assert (2 ^ 39 * X <= 0) by (apply Z.mul_nonneg_nonpos; lia). lia.
        - assert (2 ^ 46 * X <= P * X) by (apply Z.mul_le_mono_nonneg_r; lia).
          change (2 ^ 46) with (128 * 2 ^ 39) in *. lia. }
      destruct (Z_le_gt_dec 0 D) as [L | G].
      * rewrite Z.abs_eq by lia. now apply T.
      * rewrite Z.abs_neq by lia.
        replace (2 * - D - max) with (- 2 * D - max) by lia. now apply T.
    + intros h0 Hh0.
      assert (D = (h - h0) * max) as ED by (unfold D; lia).
      rewrite ED in PD.
      assert (- 1 < h - h0 < 1); [|lia].
      assert (100 < P) by lia.
      split; nia.
Qed.

End Percentage.

(** X17. For a brightness between 0 and a positive maximum, [show] prints a
    percentage between [0.00] and [100.00] that is within half a hundredth
    of the true percentage [100 * cur / max], up to a relative excess of
    [2^-39] that comes from the division in floating point. *)
Theorem show_percentage_accurate w cur max :
  readable (max_brightness_node w) = true ->
  int_of_str (content (max_brightness_node w)) = Ok max ->
  readable (brightness_node w) = true ->
  int_of_str (content (brightness_node w)) = Ok cur ->
  0 < max -> 0 <= cur <= max ->
  exists h,
    0 <= h <= 10000
    /\ 2 ^ 39 * (2 * Z.abs (h * max - 10000 * cur) - max) <= max
    /\ main ArgsShow w
       = (Returned,
          {| brightness_node := brightness_node w;
             max_brightness_node := max_brightness_node w;
             stdout :=
               stdout w
               ++ (lit "Current brightness: " ++ str_of_int cur ++ lit "/"
                     ++ str_of_int max ++ lit " ("
                     ++ two_decimals h ++ lit "%)")
               ++ [10];
             opened :=
               opened w ++ [OpenRead max_brightness; OpenRead brightness] |}).
Proof.
  intros Hrm Hm Hr Hc Hmax Hcur.
  destruct (hundredths_spec cur max Hmax Hcur)
    as (percentage & Hp & Hneg & Hrange & Hacc & _).
  exists (round_scaled 100 percentage).
  split; [exact Hrange | split; [exact Hacc|]].
  rewrite (show_run w cur max percentage Hrm Hm Hr Hc Hp).
  now rewrite (format_2f_positive percentage Hneg).
Qed.

Lemma show_percentage_accurate_witness :
  exists h,
    0 <= h <= 10000
    /\ 2 ^ 39 * (2 * Z.abs (h * 937 - 10000 * 312) - 937) <= 937
    /\ main ArgsShow (device (lit "312") (lit "937"))
       = (Returned,
          {| brightness_node :=
               brightness_node (device (lit "312") (lit "937"));
             max_brightness_node :=
               max_brightness_node (device (lit "312") (lit "937"));
             stdout :=
               stdout (device (lit "312") (lit "937"))
               ++ (lit "Current brightness: " ++ str_of_int 312 ++ lit "/"
                     ++ str_of_int 937 ++ lit " ("
                     ++ two_decimals h ++ lit "%)")
               ++ [10];
             opened :=
               opened (device (lit "312") (lit "937"))
               ++ [OpenRead max_brightness; OpenRead brightness] |}).
Proof.
  apply (show_percentage_accurate (device (lit "312") (lit "937")) 312 937).
  - reflexivity.
  - reflexivity.
  - reflexivity.
  - reflexivity.
  - lia.
  - lia.
Defined.

(** X18. When the true percentage has at most two decimals, that is when
    [10000 * cur = h * max] for an integer [h], [show] prints exactly [h]
    hundredths: the detour through a double loses nothing.  So a brightness
    equal to the maximum is shown as [100.00] and none as [0.00]. *)
Theorem show_percentage_exact w cur max h :
  readable (max_brightness_node w) = true ->
  int_of_str (content (max_brightness_node w)) = Ok max ->
  readable (brightness_node w) = true ->
  int_of_str (content (brightness_node w)) = Ok cur ->
  0 < max -> 0 <= cur <= max ->
  10000 * cur = h * max ->
  main ArgsShow w
  = (Returned,
     {| brightness_node := brightness_node w;
        max_brightness_node := max_brightness_node w;
        stdout :=
          stdout w
          ++ (lit "Current brightness: " ++ str_of_int cur ++ lit "/"
                ++ str_of_int max ++ lit " ("
                ++ two_decimals h ++ lit "%)")
          ++ [10];
        opened :=
          opened w ++ [OpenRead max_brightness; OpenRead brightness] |}).
Proof.
  intros Hrm Hm Hr Hc Hmax Hcur Hh.
  destruct (hundredths_spec cur max Hmax Hcur)
    as (percentage & Hp & Hneg & _ & _ & Hexact).
  rewrite (show_run w cur max percentage Hrm Hm Hr Hc Hp).
  rewrite (format_2f_positive percentage Hneg).
  now rewrite (Hexact h Hh).
Qed.

Lemma show_percentage_exact_witness :
  main ArgsShow (device (lit "937") (lit "937"))
  = (Returned,
     {| brightness_node := brightness_node (device (lit "937") (lit "937"));
        max_brightness_node :=
          max_brightness_node (device (lit "937") (lit "937"));
        stdout := lit "Current brightness: 937/937 (100.00%)" ++ [10];
        opened := [OpenRead max_brightness; OpenRead brightness] |}).
Proof.
  apply (show_percentage_exact (device (lit "937") (lit "937")) 937 937 10000).
  - reflexivity.
  - reflexivity.
  - reflexivity.
  - reflexivity.
  - lia.
  - lia.
  - reflexivity.
Defined.

(** ** Percentage steps *)

(** X19. A relative percentage is a step whose size depends on the maximum
    only, not on the current brightness: [set +p%] followed by [set -p%]
    with the same digits succeeds twice and leaves in the brightness file
    the value [cur] it held at first, for every quotient [p * max / 100]
    below [2^52] in magnitude, on a file that takes what is written and
    with numbers that stay within the 4300 digits of [int] and [str]. *)
Theorem set_percent_up_then_down ds w cur max :
  ds <> [] -> forallb is_decimal ds = true ->
  Z.of_nat (List.length ds) <= max_str_digits ->
  readable (brightness_node w) = true ->
  writable (brightness_node w) = true ->
  accepting (brightness_node w) = true ->
  int_of_str (content (brightness_node w)) = Ok cur ->
  readable (max_brightness_node w) = true ->
  int_of_str (content (max_brightness_node w)) = Ok max ->
  Z.abs (decimal_value ds * max) < 100 * 2 ^ 52 ->
  Z.abs cur + 2 ^ 52 < 10 ^ max_str_digits ->
  fst (set_current_brightness (lit "+" ++ ds ++ lit "%") w) = Ok tt
  /\ fst (set_current_brightness (lit "-" ++ ds ++ lit "%")
            (snd (set_current_brightness (lit "+" ++ ds ++ lit "%") w)))
     = Ok tt
  /\ content
       (brightness_node
          (snd (set_current_brightness (lit "-" ++ ds ++ lit "%")
                  (snd (set_current_brightness
                          (lit "+" ++ ds ++ lit "%") w)))))
     = str_of_int cur ++ [10].
Proof.
  intros Hne Hds Hlen Hr Hw Ha Hc Hrm Hm Hb Hcb.
  assert (percent_part (lit "%")) as Pc by now right.
  assert (sign_part (lit "+")) as Sp by (right; now left).
  assert (sign_part (lit "-")) as Sm by (right; now right).
  pose proof (re_fullmatch_expression (lit "+") ds (lit "%") Sp Hne Hds Pc)
    as Mp.
  pose proof (re_fullmatch_expression (lit "-") ds (lit "%") Sm Hne Hds Pc)
    as Mm.
  change (group (lit "+")) with (Some (lit "+")) in Mp.
  change (group (lit "-")) with (Some (lit "-")) in Mm.
  change (group (lit "%")) with (Some (lit "%")) in Mp, Mm.
  pose proof (int_of_digits ds Hne Hds Hlen) as Hn.
  set (n := decimal_value ds) in *.
  assert (exists q, true_divide (n * max) 100 = Ok q) as [q Hq].
  { destruct (Z.eq_dec (n * max) 0) as [E | E].
    - rewrite E. eexists. apply true_divide_zero. lia.
    - destruct (true_divide_below (n * max) 100 52) as (e & _ & He);
        try lia.
      eexists. exact He. }
  pose proof (round_percent_bound (n * max) q Hb Hq) as Hround.
  assert (forall w0 c sg,
             read_value brightness w0 = Ok c ->
             max_brightness_node w0 = max_brightness_node w ->
             fst (new_brightness_of (Some sg, ds, Some (lit "%")) w0)
             = Ok (apply_sign (sign_of sg) c (round q))) as N.
  { intros w0 c sg H1 H3.
    rewrite new_brightness_signed_percent, H1. unfold Ok.
    assert (read_value max_brightness w0 = Ok max) as ->.
    { apply read_value_ok; cbn [node_of]; now rewrite H3. }
    unfold Ok. rewrite Hn. unfold Ok. rewrite Hq. reflexivity. }
  pose proof (N w cur (lit "+") (read_value_ok brightness w cur Hr Hc) eq_refl)
    as N1.
  change (sign_of (lit "+")) with Plus in N1. cbn [apply_sign] in N1.
  assert (Z.abs (cur + round q) < 10 ^ max_str_digits) as Hb1 by lia.
  assert (Z.abs cur < 10 ^ max_str_digits) as Hb2 by lia.
  destruct (set_result_nodes _ _ w _ Mp N1 Hw Ha Hb1) as (R1 & B1 & M1).
  set (w1 := snd (set_current_brightness (lit "+" ++ ds ++ lit "%") w)) in *.
  assert (writable (brightness_node w1) = true) as Hw1
      by (rewrite B1; exact Hw).
  assert (accepting (brightness_node w1) = true) as Ha1
      by (rewrite B1; exact Ha).
  assert (read_value brightness w1 = Ok (cur + round q)) as V1.
  { apply read_printed; [| |exact Hb1]; rewrite B1; [exact Hr | reflexivity]. }
  pose proof (N w1 _ (lit "-") V1 M1) as N2.
  change (sign_of (lit "-")) with Minus in N2. cbn [apply_sign] in N2.
  replace (cur + round q - round q) with cur in N2 by lia.
  destruct (set_result_nodes _ _ w1 _ Mm N2 Hw1 Ha1 Hb2) as (R2 & B2 & _).
  split; [exact R1 | split; [exact R2|]].
  rewrite B2. reflexivity.
Qed.

Lemma set_percent_up_then_down_witness :
  fst (set_current_brightness (lit "+" ++ lit "10" ++ lit "%")
         (device (lit "500") (lit "937"))) = Ok tt
  /\ fst (set_current_brightness (lit "-" ++ lit "10" ++ lit "%")
            (snd (set_current_brightness (lit "+" ++ lit "10" ++ lit "%")
                    (device (lit "500") (lit "937"))))) = Ok tt
  /\ content
       (brightness_node
          (snd (set_current_brightness (lit "-" ++ lit "10" ++ lit "%")
                  (snd (set_current_brightness
                          (lit "+" ++ lit "10" ++ lit "%")
                          (device (lit "500") (lit "937")))))))
     = str_of_int 500 ++ [10].
Proof.
  apply (set_percent_up_then_down (lit "10")
           (device (lit "500") (lit "937")) 500 937).
  - discriminate.
  - reflexivity.
  - vm_compute. discriminate.
  - reflexivity.
  - reflexivity.
  - reflexivity.
  - reflexivity.
  - reflexivity.
  - reflexivity.
  - vm_compute. reflexivity.
  - exact (below_limit (500 + 2 ^ 52) eq_refl).
Defined.
